(** * German-English-MT: the training orchestrator of [utils/trainer.py]

    A shallow embedding of the [Trainer] class: reverse tokenization, the
    teacher-forcing shape check, the perplexity ranker, the epoch driver,
    the checkpoint manager and the epoch loop [train].

    Conventions.
    - Python [int] is [Z]; a Python [float] that is only added, divided and
      compared (losses, perplexities, [boost_percent]) is a rational [Q],
      and [float("inf")] is the extra point [PosInf] of [pyfloat].
    - A Python [dict] whose iteration order matters is an association list
      in insertion order; the parameter mapping of a checkpoint, where only
      the keys and their values matter, is a [gmap string tensor].
    - A raised exception is the [Raise] branch of [result]. *)

From Stdlib Require Import ZArith QArith Qround List String Bool Lia.
From Stdlib Require Import DecimalString DecimalZ Permutation Sorted Lqa.
From stdpp Require Import base list gmap strings.

Local Open Scope string_scope.
Local Open Scope list_scope.
Local Open Scope Z_scope.

(** ** Exceptions and the error monad *)

Inductive exn : Type :=
| AssertionError
| ZeroDivisionError
| IndexError
| KeyError (key : string)
| TypeError (msg : string)
| RuntimeError (msg : string)
| UnboundLocalError (name : string)
| DecoderError (msg : string).

Inductive result (A : Type) : Type :=
| Ok (a : A)
| Raise (e : exn).

Arguments Ok {A} a.
Arguments Raise {A} e.

Definition bind {A B : Type} (r : result A) (k : A -> result B) : result B :=
  match r with
  | Ok a => k a
  | Raise e => Raise e
  end.

Notation "'do' x <- r ; k" := (bind r (fun x => k))
  (at level 10, x name, r at level 100, k at level 200).
Notation "'run' r ; k" := (bind r (fun _ => k))
  (at level 10, r at level 100, k at level 200).

Definition is_ok {A : Type} (r : result A) : bool :=
  match r with Ok _ => true | Raise _ => false end.

(** [assert c] of Python. *)
Definition py_assert (c : bool) : result unit :=
  if c then Ok tt else Raise AssertionError.

(** ** Python sequences *)

(** [l[i]] on a Python list: a negative index counts from the end, an index
    out of range raises [IndexError]. *)
Definition py_index {A : Type} (l : list A) (i : Z) : result A :=
  let n := Z.of_nat (length l) in
  let j := if i <? 0 then n + i else i in
  if (0 <=? j) && (j <? n)
  then match nth_error l (Z.to_nat j) with
       | Some a => Ok a
       | None => Raise IndexError
       end
  else Raise IndexError.

(** [l[:i]]: a negative bound counts from the end, bounds are clipped. *)
Definition py_slice_to {A : Type} (l : list A) (i : Z) : list A :=
  if i <? 0 then firstn (Z.to_nat (Z.of_nat (length l) + i)) l
  else firstn (Z.to_nat i) l.

(** [l[1:]]. *)
Definition py_slice_from1 {A : Type} (l : list A) : list A := tl l.

(** ** Hyper-parameters *)

Record HyperParams : Type := {
  epochs : nat;
  boost : bool;
  boost_warmup : Z;
  boost_percent : Q;
  pad_token : Z;
  eos_index : Z;
  itos : list string;
  tgt_vocab_size : Z;
  model_dir : string
}.

(** ** Reverse tokenization *)

Section ReverseTokenization.

Variable params : HyperParams.

(** The inner loop of [batch_reverse_tokenization]: [sentence] is
    accumulated until the first [eos_index]. *)
Fixpoint reverse_example (example : list Z) : result (list string) :=
  match example with
  | [] => Ok []
  | token_id :: rest =>
      if token_id =? eos_index params then Ok []
      else
        do w <- py_index (itos params) token_id;
        do ws <- reverse_example rest;
        Ok (w :: ws)
  end.

Fixpoint batch_reverse_tokenization (batch : list (list Z))
  : result (list (list string)) :=
  match batch with
  | [] => Ok []
  | example :: rest =>
      do sentence <- reverse_example example;
      do sentences <- batch_reverse_tokenization rest;
      Ok (py_slice_from1 sentence :: sentences)
  end.


End ReverseTokenization.

(** ** Batches and what the tensor collaborator reports about them *)

(** A batch of the data iterator: the padded token-id matrices [batch.src]
    and [batch.trg], one row per example. *)
Record Batch : Type := {
  src : list (list Z);
  trg : list (list Z)
}.

(** What the model, the criterion and [compute_perplexity_on_batch] yield
    for one batch: the shape [(batch, seq_len, vocab)] of [output], the
    summed loss [loss.item()] and one perplexity per example. The numeric
    kernels themselves are outside this file. *)
Record Forward : Type := {
  out_shape : nat * nat * nat;
  batch_loss : Q;
  perplexity_per_example : list Q
}.

(** [t.view(-1, cols)] on a tensor of [numel] elements: the number of rows,
    or the [RuntimeError] of an impossible reshape. *)
Definition view_rows (numel cols : Z) : result Z :=
  if (0 <? cols) && (numel mod cols =? 0) then Ok (numel / cols)
  else Raise (RuntimeError "shape is invalid for input size").

(** [output[:, :-1, :].contiguous().view(-1, tgt_vocab_size).size(0)]. *)
Definition flat_output_rows (params : HyperParams) (shape : nat * nat * nat)
  : result Z :=
  let '(b, t, v) := shape in
  view_rows (Z.of_nat b * Z.of_nat (Nat.pred t) * Z.of_nat v) (tgt_vocab_size params).

(** [trg[:, 1:].contiguous().view(-1)]. *)
Definition flat_shifted_target (target : list (list Z)) : list Z :=
  concat (map py_slice_from1 target).

(** Lines 97-101 of [train_epoch], repeated at 215-219 of [validate]: both
    tensors are flattened and their leading sizes asserted equal. The result
    is the flattened target. *)
Definition flatten_and_check (params : HyperParams) (fw : Forward)
    (target : list (list Z)) : result (list Z) :=
  do rows <- flat_output_rows params (out_shape fw);
  let flat := flat_shifted_target target in
  run py_assert (rows =? Z.of_nat (length flat));
  Ok flat.

(** [trg.ne(pad_token).sum().item()]. *)
Definition count_non_pad (params : HyperParams) (flat : list Z) : Z :=
  Z.of_nat (length (filter (fun t => negb (t =? pad_token params)) flat)).

(** ** The example difficulty ranker *)

(** A training example as the ranker keys it: the pair of token tuples. *)
Definition ExampleKey : Type := (list string * list string)%type.

(** [d[k] = v] on a Python dict kept as its item list: an existing key keeps
    its place and takes the new value, a new key goes to the end. *)
Fixpoint dict_set (d : list (ExampleKey * Q)) (k : ExampleKey) (v : Q)
  : list (ExampleKey * Q) :=
  match d with
  | [] => [(k, v)]
  | (k', v') :: d' =>
      if decide (k' = k) then (k', v) :: d' else (k', v') :: dict_set d' k v
  end.

(** One step of [sorted(..., key=lambda kv: kv[1], reverse=True)]: [x] stood
    before every element of [l] in the input, so it goes in front of the
    first element whose score is not above its own. *)
Fixpoint insert_desc (x : ExampleKey * Q) (l : list (ExampleKey * Q))
  : list (ExampleKey * Q) :=
  match l with
  | [] => [x]
  | y :: l' =>
      if Qle_bool (snd y) (snd x) then x :: y :: l' else y :: insert_desc x l'
  end.

(** Python's [sorted] with [reverse=True] keeps the input order of items
    with equal keys; the stable descending sort of a list is unique, and
    this is it. *)
Definition sorted_desc (items : list (ExampleKey * Q)) : list (ExampleKey * Q) :=
  foldr insert_desc [] items.

(** [int(x)] on a float: truncation towards zero. *)
Definition py_int (x : Q) : Z :=
  if Qle_bool 0 x then Qfloor x else Qceiling x.

Definition get_hardest_examples (example_to_perplexity : list (ExampleKey * Q))
    (boost_percent : Q) : list (ExampleKey * Q) :=
  let sorted_examples := sorted_desc example_to_perplexity in
  let slice_index :=
    py_int (boost_percent * inject_Z (Z.of_nat (length sorted_examples)))%Q in
  py_slice_to sorted_examples slice_index.

(** ** The epoch driver *)

(** The running sums and the ranker's mapping inside [train_epoch]. *)
Record EpochAcc : Type := {
  total_loss : Q;
  n_word_total : Z;
  example_to_perplexity : list (ExampleKey * Q);
  iterations : Z
}.

(** [for i in range(trg_batch_size): example_to_perplexity[src_trg_examples[i]]
    = perplexity_per_example[i]], from index [i] on for [n] rounds. *)
Fixpoint record_perplexities (src_trg_examples : list ExampleKey)
    (perplexity : list Q) (d : list (ExampleKey * Q)) (i : Z) (n : nat)
  : result (list (ExampleKey * Q)) :=
  match n with
  | O => Ok d
  | S n' =>
      do k <- py_index src_trg_examples i;
      do pp <- py_index perplexity i;
      record_perplexities src_trg_examples perplexity (dict_set d k pp) (i + 1) n'
  end.

Section EpochDriver.

Variable params : HyperParams.

(** The body of the batch loop of [train_epoch]. *)
Definition train_batch (acc : EpochAcc) (bf : Batch * Forward) : result EpochAcc :=
  let '(batch, fw) := bf in
  do src_trg_examples <-
    (if boost params then
       do s <- batch_reverse_tokenization params (src batch);
       do t <- batch_reverse_tokenization params (trg batch);
       Ok (zip s t)
     else Ok []);
  let trg_batch_size := length (trg batch) in
  do flat <- flatten_and_check params fw (trg batch);
  do e2p <-
    (if boost params then
       record_perplexities src_trg_examples (perplexity_per_example fw)
         (example_to_perplexity acc) 0 trg_batch_size
     else Ok (example_to_perplexity acc));
  let n_word := count_non_pad params flat in
  if n_word =? 0 then Raise ZeroDivisionError
  else Ok {| total_loss := (total_loss acc + batch_loss fw)%Q;
             n_word_total := n_word_total acc + n_word;
             example_to_perplexity := e2p;
             iterations := iterations acc + 1 |}.

Fixpoint train_batches (acc : EpochAcc) (data_iter : list (Batch * Forward))
  : result EpochAcc :=
  match data_iter with
  | [] => Ok acc
  | bf :: rest => do acc' <- train_batch acc bf; train_batches acc' rest
  end.

(** [train_epoch]: loss per word, the hard examples and the advanced
    iteration counter [self.iterations]. *)
Definition train_epoch (iterations0 : Z) (data_iter : list (Batch * Forward))
  : result (Q * list (ExampleKey * Q) * Z) :=
  do acc <- train_batches {| total_loss := 0%Q; n_word_total := 0;
                             example_to_perplexity := []; iterations := iterations0 |}
              data_iter;
  let hard_examples :=
    if boost params
    then get_hardest_examples (example_to_perplexity acc) (boost_percent params)
    else [] in
  if n_word_total acc =? 0 then Raise ZeroDivisionError
  else Ok ((total_loss acc / inject_Z (n_word_total acc))%Q, hard_examples,
           iterations acc).

(** The body of the batch loop of [validate]. *)
Definition validate_batch (acc : Q * Z) (bf : Batch * Forward) : result (Q * Z) :=
  let '(batch, fw) := bf in
  do flat <- flatten_and_check params fw (trg batch);
  let n_word := count_non_pad params flat in
  if n_word =? 0 then Raise ZeroDivisionError
  else Ok ((fst acc + batch_loss fw)%Q, snd acc + n_word).

Fixpoint validate_batches (acc : Q * Z) (dev_iter : list (Batch * Forward))
  : result (Q * Z) :=
  match dev_iter with
  | [] => Ok acc
  | bf :: rest => do acc' <- validate_batch acc bf; validate_batches acc' rest
  end.

Definition validate (dev_iter : list (Batch * Forward)) : result Q :=
  do acc <- validate_batches (0%Q, 0) dev_iter;
  if snd acc =? 0 then Raise ZeroDivisionError
  else Ok (fst acc / inject_Z (snd acc))%Q.

End EpochDriver.

(** ** The checkpoint manager *)

(** A parameter tensor, as the sequence of the bit patterns of its
    elements; its length stands for its shape. *)
Abbreviation tensor := (list Z).

(** The record written by [torch.save]: the dict with the keys ["epoch"],
    ["state_dict"] and ["optim_dict"]. A mapping handed in by a caller may
    lack any of them. *)
Record Checkpoint : Type := {
  ck_epoch : option Z;
  ck_state_dict : option (gmap string tensor);
  ck_optim_dict : option (list Z)
}.

(** Directories and checkpoint files by path. *)
Record FileSystem : Type := {
  dirs : gset string;
  files : gmap string Checkpoint
}.

Definition path_exists (fs : FileSystem) (p : string) : bool :=
  bool_decide (p ∈ dirs fs) || bool_decide (is_Some (files fs !! p)).

(** [s.endswith(suffix)]. *)
Definition endswith (s suffix : string) : bool :=
  let n := String.length s in
  let m := String.length suffix in
  (m <=? n)%nat && String.eqb (substring (n - m) m s) suffix.

(** [os.path.join(a, b)] for two components. *)
Definition path_join (a b : string) : string :=
  if String.prefix "/" b then b
  else if String.eqb a "" || endswith a "/" then a +:+ b
  else a +:+ "/" +:+ b.

(** ["{}".format(n)] for an integer. *)
Definition str_of_int (n : Z) : string := NilZero.string_of_int (Z.to_int n).

(** [save_checkpoint]. [os.mkdir] and [torch.save] are taken to succeed:
    the parent of [checkpoint] exists and is writable. *)
Definition save_checkpoint (state : Checkpoint) (is_best : bool)
    (checkpoint : string) (fs : FileSystem) : result FileSystem :=
  match ck_epoch state with
  | None => Raise (KeyError "epoch")
  | Some ep =>
      let filedir := "epoch_" +:+ str_of_int ep +:+ ".pth.tar" in
      let filepath := path_join checkpoint filedir in
      let fs1 := if path_exists fs checkpoint then fs
                 else {| dirs := {[checkpoint]} ∪ dirs fs; files := files fs |} in
      let fs2 := {| dirs := dirs fs1; files := <[filepath := state]> (files fs1) |} in
      if is_best
      then Ok {| dirs := dirs fs2;
                 files := <[path_join checkpoint "best.pth.tar" := state]> (files fs2) |}
      else Ok fs2
  end.

(** The model as far as checkpoints see it: its keyed parameters. *)
Record Model : Type := {
  parameters : gmap string tensor
}.

(** [model.state_dict()]. *)
Definition model_state_dict (m : Model) : gmap string tensor := parameters m.

Definition same_shapes (a b : gmap string tensor) : bool :=
  forallb (fun kv : string * tensor =>
    match b !! fst kv with
    | Some w => Nat.eqb (length (snd kv)) (length w)
    | None => false
    end) (map_to_list a).

(** [torch.nn.Module.load_state_dict] with its default [strict=True]: the
    keys given must be exactly the keys of the module and each tensor must
    have the module's shape; then the values are copied in. *)
Definition load_state_dict (m : Model) (sd : gmap string tensor) : result Model :=
  if bool_decide (dom sd = dom (parameters m))
  then if same_shapes sd (parameters m)
       then Ok {| parameters := sd |}
       else Raise (RuntimeError "size mismatch")
  else Raise (RuntimeError "Missing or unexpected key(s) in state_dict").

(** The optimizer: a [ScheduledOptimizer] wraps a plain one; either way its
    state is an opaque blob. *)
Record Optimizer : Type := {
  is_scheduled : bool;
  optim_state : list Z
}.

(** The loop at lines 461-463 of [load_checkpoint]. The keys are visited in
    the map's own order rather than insertion order; every key is visited
    once and deleting one key does not affect another, so the order does
    not show in the result. *)
Definition drop_legacy_keys (state_dict : gmap string tensor) : gmap string tensor :=
  foldl (fun sd key => if endswith key "weight_hh_l0" then delete key sd else sd)
        state_dict (map fst (map_to_list state_dict)).

(** The [checkpoint] argument of [load_checkpoint]: a path, or a mapping
    the caller has already deserialised. *)
Inductive CheckpointArg : Type :=
| Path (p : string)
| Mapping (c : Checkpoint).

(** What [load_checkpoint] can change: the model, the optimizer, and the
    caller's mapping when one was passed ([None] when a path was). *)
Record LoadState : Type := {
  ls_model : Model;
  ls_optimizer : option Optimizer;
  ls_mapping : option Checkpoint
}.

(** How a call ends: normally, or by an exception, with the state reached. *)
Inductive outcome (S : Type) : Type :=
| Completed (s : S)
| Aborted (e : exn) (s : S).

Arguments Completed {S} s.
Arguments Aborted {S} e s.

Definition final_state {S : Type} (o : outcome S) : S :=
  match o with Completed s => s | Aborted _ s => s end.


(** Lines 455-472 of [load_checkpoint], once [checkpoint] is a mapping.
    [shared] says whether that mapping is the caller's object. *)
Definition restore_from (model : Model) (optimizer : option Optimizer)
    (c : Checkpoint) (shared : bool) : outcome LoadState :=
  let st c' m o :=
    {| ls_model := m; ls_optimizer := o;
       ls_mapping := if shared then Some c' else None |} in
  match ck_state_dict c with
  | None => Aborted (KeyError "state_dict") (st c model optimizer)
  | Some state_dict =>
      let c' := {| ck_epoch := ck_epoch c;
                   ck_state_dict := Some (drop_legacy_keys state_dict);
                   ck_optim_dict := ck_optim_dict c |} in
      match load_state_dict model (drop_legacy_keys state_dict) with
      | Raise e => Aborted e (st c' model optimizer)
      | Ok model' =>
          match optimizer with
          | None => Completed (st c' model' None)
          | Some o =>
              match ck_optim_dict c' with
              | None => Aborted (KeyError "optim_dict") (st c' model' optimizer)
              | Some od =>
                  Completed (st c' model'
                    (Some {| is_scheduled := is_scheduled o; optim_state := od |}))
              end
          end
      end
  end.

(** [load_checkpoint]. [raise] of a plain string is itself a [TypeError] in
    Python 3, whatever the string says. *)
Definition load_checkpoint (fs : FileSystem) (model : Model)
    (checkpoint : CheckpointArg) (optimizer : option Optimizer) : outcome LoadState :=
  match checkpoint with
  | Path p =>
      let st := {| ls_model := model; ls_optimizer := optimizer; ls_mapping := None |} in
      if negb (path_exists fs p)
      then Aborted (TypeError "exceptions must derive from BaseException") st
      else match files fs !! p with
           | None => Aborted (RuntimeError "Is a directory") st
           | Some c => restore_from model optimizer c false
           end
  | Mapping c => restore_from model optimizer c true
  end.

(** ** The training orchestrator *)

(** A Python float with [float("inf")]. *)
Inductive pyfloat : Type :=
| Finite (q : Q)
| PosInf.

(** [a < b] on floats. *)
Definition float_lt (a b : pyfloat) : bool :=
  match a, b with
  | Finite x, Finite y => negb (Qle_bool y x)
  | Finite _, PosInf => true
  | PosInf, _ => false
  end.

(** A torchtext [Example] with the attributes [src] and [trg]. *)
Record Example : Type := {
  ex_src : list string;
  ex_trg : list string
}.

Definition create_example_objs (hard_training_instances : list (ExampleKey * Q))
  : list Example :=
  map (fun h => {| ex_src := fst (fst h); ex_trg := snd (fst h) |})
      hard_training_instances.

(** A data iterator: the example collection it batches, and whether it is
    the trainer's own [train_iter] or one made by [create_boosted_dataset]. *)
Record DataIterator : Type := {
  dataset : list Example;
  made_by_boosting : bool
}.

Definition create_boosted_dataset (new_training_data : list Example) : DataIterator :=
  {| dataset := new_training_data; made_by_boosting := true |}.

(** Modelled from the spec: [DataIterator.data()] of [utils/data_loader.py],
    which is not among the sources. The batch stream collaborator "exposes
    an underlying mutable example collection (extend-with(examples))" and
    "the base set being extended already includes previous boosts": the
    list that [data()] returns is the iterator's own collection, so
    [existing_data.extend(example_objs)] extends [train_iter] itself. This
    is the collection of [train_iter] after the call. *)
Definition data_extend (train_iter : list Example) (example_objs : list Example)
  : list Example :=
  train_iter ++ example_objs.

(** An entry of the Tensorboard log. The value of a scalar is kept where it
    is a loss; the perplexities [math.exp(...)] are logged without it. *)
Inductive SummaryEntry : Type :=
| Scalar (tag : string) (value : option Q) (step : nat)
| Text (tag : string) (text : string) (step : nat).

(** The fields of [Trainer] that [train] reads and writes, and the disk.
    [self_train_iter] is the example collection of [self.train_iter];
    [self_scheduler] is [None] without a scheduler and otherwise the
    metrics it has been stepped with. *)
Record Trainer : Type := {
  self_epoch : nat;
  self_iterations : Z;
  self_best_val_loss : pyfloat;
  self_decode_every_num_epochs : Z;
  self_train_iter : list Example;
  self_scheduler : option (list Q);
  self_summary_writer : list SummaryEntry;
  disk : FileSystem
}.

(** [Trainer.__init__]. *)
Definition init_trainer (train_iter : list Example) (scheduler : bool)
    (fs : FileSystem) : Trainer :=
  {| self_epoch := 0;
     self_iterations := 0;
     self_best_val_loss := PosInf;
     self_decode_every_num_epochs := 3;
     self_train_iter := train_iter;
     self_scheduler := if scheduler then Some [] else None;
     self_summary_writer := [];
     disk := fs |}.

Definition set_epoch (e : nat) (t : Trainer) : Trainer :=
  {| self_epoch := e;
     self_iterations := self_iterations t;
     self_best_val_loss := self_best_val_loss t;
     self_decode_every_num_epochs := self_decode_every_num_epochs t;
     self_train_iter := self_train_iter t;
     self_scheduler := self_scheduler t;
     self_summary_writer := self_summary_writer t;
     disk := disk t |}.

Definition set_iterations (n : Z) (t : Trainer) : Trainer :=
  {| self_epoch := self_epoch t;
     self_iterations := n;
     self_best_val_loss := self_best_val_loss t;
     self_decode_every_num_epochs := self_decode_every_num_epochs t;
     self_train_iter := self_train_iter t;
     self_scheduler := self_scheduler t;
     self_summary_writer := self_summary_writer t;
     disk := disk t |}.

Definition set_best_val_loss (b : pyfloat) (t : Trainer) : Trainer :=
  {| self_epoch := self_epoch t;
     self_iterations := self_iterations t;
     self_best_val_loss := b;
     self_decode_every_num_epochs := self_decode_every_num_epochs t;
     self_train_iter := self_train_iter t;
     self_scheduler := self_scheduler t;
     self_summary_writer := self_summary_writer t;
     disk := disk t |}.

Definition set_train_iter (d : list Example) (t : Trainer) : Trainer :=
  {| self_epoch := self_epoch t;
     self_iterations := self_iterations t;
     self_best_val_loss := self_best_val_loss t;
     self_decode_every_num_epochs := self_decode_every_num_epochs t;
     self_train_iter := d;
     self_scheduler := self_scheduler t;
     self_summary_writer := self_summary_writer t;
     disk := disk t |}.

Definition set_scheduler (s : option (list Q)) (t : Trainer) : Trainer :=
  {| self_epoch := self_epoch t;
     self_iterations := self_iterations t;
     self_best_val_loss := self_best_val_loss t;
     self_decode_every_num_epochs := self_decode_every_num_epochs t;
     self_train_iter := self_train_iter t;
     self_scheduler := s;
     self_summary_writer := self_summary_writer t;
     disk := disk t |}.

(** [self.summary_writer.add_scalar] and [add_text]: one more entry. *)
Definition add_summary (entries : list SummaryEntry) (t : Trainer) : Trainer :=
  {| self_epoch := self_epoch t;
     self_iterations := self_iterations t;
     self_best_val_loss := self_best_val_loss t;
     self_decode_every_num_epochs := self_decode_every_num_epochs t;
     self_train_iter := self_train_iter t;
     self_scheduler := self_scheduler t;
     self_summary_writer := self_summary_writer t ++ entries;
     disk := disk t |}.

Definition set_disk (fs : FileSystem) (t : Trainer) : Trainer :=
  {| self_epoch := self_epoch t;
     self_iterations := self_iterations t;
     self_best_val_loss := self_best_val_loss t;
     self_decode_every_num_epochs := self_decode_every_num_epochs t;
     self_train_iter := self_train_iter t;
     self_scheduler := self_scheduler t;
     self_summary_writer := self_summary_writer t;
     disk := fs |}.

(** What the collaborators do in epoch [e] (0-based): the batches a data
    iterator yields together with the tensor results on them, the same for
    [dev_iter], the outcome of [Translator.greedy_decode], and the state of
    model and optimizer at the end of the epoch. *)
Record Collaborators : Type := {
  batches : nat -> DataIterator -> list (Batch * Forward);
  dev_batches : nat -> list (Batch * Forward);
  greedy_decode : nat -> result (list (list string));
  state_dict_at : nat -> gmap string tensor;
  optim_dict_at : nat -> list Z
}.

(** The variables of [train] that live across epochs. *)
Record Loop : Type := {
  self : Trainer;
  hard_training_instances : option (list (ExampleKey * Q))
}.

Section Orchestrator.

Variable params : HyperParams.
Variable world : Collaborators.

(** The condition at line 320: [self.params.boost and epoch+1 >
    self.params.boost_warmup]. *)
Definition boosting_applies (epoch : nat) : bool :=
  boost params && (boost_warmup params <? Z.of_nat epoch + 1).

(** Lines 317-333: the data iterator of this epoch. A read of
    [hard_training_instances] before its first assignment is an
    [UnboundLocalError]. *)
Definition select_iterator (epoch : nat) (l : Loop) : result (Trainer * DataIterator) :=
  let t := self l in
  if boosting_applies epoch then
    match hard_training_instances l with
    | None => Raise (UnboundLocalError "hard_training_instances")
    | Some hard =>
        let example_objs := create_example_objs hard in
        let existing_data := data_extend (self_train_iter t) example_objs in
        Ok (set_train_iter existing_data t, create_boosted_dataset existing_data)
    end
  else Ok (t, {| dataset := self_train_iter t; made_by_boosting := false |}).

(** Lines 365-376: greedy decoding every [decode_every_num_epochs]
    epochs. *)
Definition periodic_decode (t : Trainer) : result Trainer :=
  if self_decode_every_num_epochs t =? 0 then Raise ZeroDivisionError
  else if (Z.of_nat (self_epoch t) + 1) mod self_decode_every_num_epochs t =? 0 then
    do translations <- greedy_decode world (self_epoch t);
    Ok (add_summary
          (map (fun translation =>
                  Text "transformer/translation" (String.concat " " translation)
                       (self_epoch t))
               translations) t)
  else Ok t.

(** Lines 383-384. *)
Definition scheduler_step (val_loss_avg : Q) (t : Trainer) : Trainer :=
  match self_scheduler t with
  | None => t
  | Some seen => set_scheduler (Some (seen ++ [val_loss_avg])) t
  end.

(** The path given to [save_checkpoint]. *)
Definition checkpoint_dir : string := model_dir params +:+ "/checkpoints/".

(** Lines 386-401: the [is_best] decision, the checkpoint write and the
    update of [best_val_loss]. *)
Definition checkpoint_epoch (epoch : nat) (val_loss_avg : Q) (t : Trainer)
  : result Trainer :=
  let is_best := float_lt (Finite val_loss_avg) (self_best_val_loss t) in
  let state := {| ck_epoch := Some (Z.of_nat epoch + 1);
                  ck_state_dict := Some (state_dict_at world epoch);
                  ck_optim_dict := Some (optim_dict_at world epoch) |} in
  do fs <- save_checkpoint state is_best checkpoint_dir (disk t);
  let t' := set_disk fs t in
  Ok (if is_best then set_best_val_loss (Finite val_loss_avg) t' else t').

(** The body of the epoch loop of [train]. [math.exp] of a loss is taken
    to succeed. *)
Definition train_one_epoch (epoch : nat) (l : Loop) : outcome Loop :=
  let l0 := {| self := set_epoch epoch (self l);
               hard_training_instances := hard_training_instances l |} in
  match select_iterator epoch l0 with
  | Raise ex => Aborted ex l0
  | Ok (t1, data_iterator) =>
      let l1 := {| self := t1; hard_training_instances := hard_training_instances l |} in
      match train_epoch params (self_iterations t1) (batches world epoch data_iterator) with
      | Raise ex => Aborted ex l1
      | Ok (train_loss_avg, hard, its) =>
          let t2 := add_summary
                      [Scalar "train/avg_loss_per_epoch" (Some train_loss_avg) epoch;
                       Scalar "train/avg_perplexity_epoch" None epoch]
                      (set_iterations its t1) in
          let stop ex t := Aborted ex {| self := t; hard_training_instances := Some hard |} in
          match validate params (dev_batches world epoch) with
          | Raise ex => stop ex t2
          | Ok val_loss_avg =>
              let t3 := add_summary
                          [Scalar "val/loss" (Some val_loss_avg) epoch;
                           Scalar "val/perplexity" None epoch] t2 in
              match periodic_decode t3 with
              | Raise ex => stop ex t3
              | Ok t4 =>
                  let t5 := scheduler_step val_loss_avg t4 in
                  match checkpoint_epoch epoch val_loss_avg t5 with
                  | Raise ex => stop ex t5
                  | Ok t6 =>
                      Completed {| self := t6; hard_training_instances := Some hard |}
                  end
              end
          end
      end
  end.

Fixpoint train_loop (epochs_left : list nat) (l : Loop) : outcome Loop :=
  match epochs_left with
  | [] => Completed l
  | epoch :: rest =>
      match train_one_epoch epoch l with
      | Completed l' => train_loop rest l'
      | Aborted ex l' => Aborted ex l'
      end
  end.

(** The state in which the loop is entered: [hard_training_instances] is
    bound to the empty list only when [boost_warmup] is falsy. *)
Definition enter_loop (t : Trainer) : Loop :=
  {| self := t;
     hard_training_instances := if boost_warmup params =? 0 then Some [] else None |}.

(** [train]. *)
Definition train (t : Trainer) : outcome Loop :=
  train_loop (seq 0 (epochs params)) (enter_loop t).

End Orchestrator.

(** ** Predicates used in the statements *)

(** The flattened output of a batch has as many rows as the flattened
    shifted target has elements. *)
Definition counts_match (params : HyperParams) (bf : Batch * Forward) : bool :=
  match flat_output_rows params (out_shape (snd bf)) with
  | Ok rows => rows =? Z.of_nat (length (flat_shifted_target (trg (fst bf))))
  | Raise _ => false
  end.




(** The trainer after the two training scalars and the two validation
    scalars of epoch [epoch] have been logged. *)
Definition after_validation (epoch : nat) (train_loss_avg val_loss_avg : Q)
    (its : Z) (t1 : Trainer) : Trainer :=
  add_summary [Scalar "val/loss" (Some val_loss_avg) epoch;
               Scalar "val/perplexity" None epoch]
    (add_summary [Scalar "train/avg_loss_per_epoch" (Some train_loss_avg) epoch;
                  Scalar "train/avg_perplexity_epoch" None epoch]
       (set_iterations its t1)).


(** A legacy key: one matching the recurrent-cell weight pattern. *)
Definition is_legacy (key : string) : bool := endswith key "weight_hh_l0".

(** The strict restore of [sd] into [target] goes through: same keys, same
    shapes. *)
Definition accepts (target : Model) (sd : gmap string tensor) : bool :=
  bool_decide (dom sd = dom (parameters target)) && same_shapes sd (parameters target).


(** The file [save_checkpoint] writes for epoch [ep]. *)
Definition epoch_file (dir : string) (ep : Z) : string :=
  path_join dir ("epoch_" +:+ str_of_int ep +:+ ".pth.tar").


(** The collaborators with another decoder. *)
Definition with_decoder (world : Collaborators)
    (decoder : nat -> result (list (list string))) : Collaborators :=
  {| batches := batches world;
     dev_batches := dev_batches world;
     greedy_decode := decoder;
     state_dict_at := state_dict_at world;
     optim_dict_at := optim_dict_at world |}.


(** The validation losses logged so far, oldest first: the values of the
    ["val/loss"] scalars. *)
Definition val_losses (log : list SummaryEntry) : list Q :=
  flat_map (fun en =>
              match en with
              | Scalar tag (Some v) _ => if String.eqb tag "val/loss" then [v] else []
              | _ => []
              end) log.

(** The fixed file of the best checkpoint. *)
Definition best_file (params : HyperParams) : string :=
  path_join (checkpoint_dir params) "best.pth.tar".

(** The state saved at the end of epoch [epoch] (0-based). *)
Definition epoch_state (world : Collaborators) (epoch : nat) : Checkpoint :=
  {| ck_epoch := Some (Z.of_nat epoch + 1);
     ck_state_dict := Some (state_dict_at world epoch);
     ck_optim_dict := Some (optim_dict_at world epoch) |}.

(** [best] is below exactly those losses that are below every loss in
    [seen]: it is their minimum, infinity when there are none. *)
Definition is_minimum_of (seen : list Q) (best : pyfloat) : Prop :=
  forall v : Q, float_lt (Finite v) best = true <-> (forall u, In u seen -> (v < u)%Q).


(** [x] may stand before [y] in a descending order of scores. *)
Definition score_ge (x y : ExampleKey * Q) : Prop := (snd y <= snd x)%Q.


(** ** Concrete inputs used below *)

Definition c7_params : HyperParams :=
  {| epochs := 1; boost := true; boost_warmup := 0; boost_percent := 1 # 2;
     pad_token := 1; eos_index := 3;
     itos := ["<unk>"; "<pad>"; "<s>"; "</s>"; "guten"; "tag"];
     tgt_vocab_size := 6; model_dir := "m" |}.


Definition c8_params : HyperParams :=
  {| epochs := 1; boost := false; boost_warmup := 0; boost_percent := 0;
     pad_token := 1; eos_index := 3; itos := ["<unk>"; "<pad>"; "<s>"; "</s>"; "a"];
     tgt_vocab_size := 5; model_dir := "m" |}.

(** Two target rows of four ids each. *)
Definition c8_batch : Batch :=
  {| src := [[2; 4; 3]; [2; 4; 3]]; trg := [[2; 4; 4; 3]; [2; 4; 3; 1]] |}.

(** The model answered with [(2, 4, 5)]: one distribution per position. *)
Definition c8_good : Forward :=
  {| out_shape := (2%nat, 4%nat, 5%nat); batch_loss := 3; perplexity_per_example := [1; 1]%Q |}.



(** A small run: a vocabulary of eight entries, four training examples of
    one token each, one training batch holding the whole collection, and a
    validation stream of ten words whose summed loss is 25, 21, 23 and 19
    in the first four epochs. *)
Definition demo_itos : list string :=
  ["<unk>"; "<pad>"; "<s>"; "</s>"; "a"; "b"; "c"; "d"].

Definition demo_stoi (t : string) : Z :=
  if String.eqb t "a" then 4 else if String.eqb t "b" then 5
  else if String.eqb t "c" then 6 else if String.eqb t "d" then 7 else 0.

Definition demo_params (warmup : Z) (percent : Q) (n : nat) : HyperParams :=
  {| epochs := n; boost := true; boost_warmup := warmup; boost_percent := percent;
     pad_token := 1; eos_index := 3; itos := demo_itos;
     tgt_vocab_size := 8; model_dir := "model" |}.

Definition demo_data : list Example :=
  [ {| ex_src := ["a"]; ex_trg := ["b"] |};
    {| ex_src := ["b"]; ex_trg := ["c"] |};
    {| ex_src := ["c"]; ex_trg := ["d"] |};
    {| ex_src := ["d"]; ex_trg := ["a"] |} ].

Definition demo_tokens (s : list string) : list Z := 2 :: map demo_stoi s ++ [3].

Definition demo_batches (e : nat) (it : DataIterator) : list (Batch * Forward) :=
  let ds := dataset it in
  [({| src := map (fun ex => demo_tokens (ex_src ex)) ds;
       trg := map (fun ex => demo_tokens (ex_trg ex)) ds |},
    {| out_shape := (length ds, 3%nat, 8%nat);
       batch_loss := inject_Z (Z.of_nat (length ds));
       perplexity_per_example :=
         map (fun ex => inject_Z (demo_stoi (hd "" (ex_trg ex)))) ds |})].

Definition demo_dev_loss (e : nat) : Q :=
  match e with
  | 0%nat => 25
  | 1%nat => 21
  | 2%nat => 23
  | _ => 19
  end.

Definition demo_dev_batches (e : nat) : list (Batch * Forward) :=
  [({| src := [[2; 4; 5; 4; 5; 4; 3]; [2; 5; 4; 5; 4; 5; 3]];
       trg := [[2; 6; 7; 6; 7; 6]; [2; 7; 6; 7; 6; 7]] |},
    {| out_shape := (2%nat, 6%nat, 8%nat);
       batch_loss := demo_dev_loss e;
       perplexity_per_example := [] |})].

Definition demo_world : Collaborators :=
  {| batches := demo_batches;
     dev_batches := demo_dev_batches;
     greedy_decode := fun _ => Ok [["a"; "b"]];
     state_dict_at := fun e => {[ "fc.weight" := [Z.of_nat e] ]};
     optim_dict_at := fun e => [Z.of_nat e] |}.

(** The same run with a decoder that fails. *)
Definition failing_decoder_world : Collaborators :=
  {| batches := demo_batches;
     dev_batches := demo_dev_batches;
     greedy_decode := fun _ => Raise (DecoderError "greedy_decode failed");
     state_dict_at := fun e => {[ "fc.weight" := [Z.of_nat e] ]};
     optim_dict_at := fun e => [Z.of_nat e] |}.

Definition empty_disk : FileSystem := {| dirs := ∅; files := ∅ |}.

Definition demo_trainer : Trainer := init_trainer demo_data true empty_disk.

(** The loop state after [n] epochs of the small run. *)
Definition demo_run (world : Collaborators) (warmup : Z) (percent : Q) (n : nat)
  : outcome Loop :=
  train_loop (demo_params warmup percent n) world (seq 0 n)
             (enter_loop (demo_params warmup percent n) demo_trainer).

(** Two completed epochs of the small run with a warmup of two. *)
Definition warmup_run : Loop := final_state (demo_run demo_world 2 (1 # 2) 2).

(** A recurrent model whose own parameters include the hidden-to-hidden
    weight, and the same model as it is built afresh under the weight-drop
    wrapper, where that weight is registered under another name only. *)
Definition gru_live : Model :=
  {| parameters := {[ "rnn.weight_hh_l0" := [11; 12];
                      "rnn.weight_hh_l0_raw" := [11; 12];
                      "fc.weight" := [7] ]} |}.

Definition gru_fresh : Model :=
  {| parameters := {[ "rnn.weight_hh_l0_raw" := [0; 0]; "fc.weight" := [0] ]} |}.

Definition gru_state : Checkpoint :=
  {| ck_epoch := Some 1;
     ck_state_dict := Some (model_state_dict gru_live);
     ck_optim_dict := Some [5] |}.

(** The disk after [save_checkpoint(gru_state, True, "ckpt/")]. *)
Definition gru_disk : FileSystem :=
  match save_checkpoint gru_state true "ckpt/" empty_disk with
  | Ok fs => fs
  | Raise _ => empty_disk
  end.

(** The small run without warmup, after [n] epochs. *)
Definition best_params : HyperParams := demo_params 0 (1 # 2) 4.

Definition demo_after (n : nat) : Loop :=
  final_state (train_loop best_params demo_world (seq 0 n)
                 (enter_loop best_params demo_trainer)).



(** Five scored examples, two of them tied at the second highest score. *)
Definition ranked_pool : list (ExampleKey * Q) :=
  [ ((["a"], ["b"]), 3 # 1);
    ((["b"], ["c"]), 7 # 2);
    ((["c"], ["d"]), 9 # 1);
    ((["d"], ["a"]), 7 # 2);
    ((["a"], ["c"]), 1 # 1) ]%Q.

(** ** More of [trainer.py] *)

(** [epoch_time]: the elapsed time in whole minutes and seconds. *)
Definition epoch_time (start_time end_time : Q) : Z * Z :=
  let elapsed_time := (end_time - start_time)%Q in
  let elapsed_mins := py_int (elapsed_time / 60) in
  let elapsed_secs := py_int (elapsed_time - inject_Z elapsed_mins * 60) in
  (elapsed_mins, elapsed_secs).

(** ** More predicates used in the statements *)

(** The non-padding target words of a batch, as the loops count them. *)
Definition batch_words (params : HyperParams) (bf : Batch * Forward) : Z :=
  count_non_pad params (flat_shifted_target (trg (fst bf))).

(** The summed loss and the word count of a stream of batches. *)
Definition stream_loss (stream : list (Batch * Forward)) : Q :=
  fold_right (fun bf s => (batch_loss (snd bf) + s)%Q) 0%Q stream.

Definition stream_words (params : HyperParams) (stream : list (Batch * Forward)) : Z :=
  fold_right (fun bf s => batch_words params bf + s) 0 stream.

(** [d[k]] on a dict kept as its item list. *)
Fixpoint dict_get (d : list (ExampleKey * Q)) (k : ExampleKey) : option Q :=
  match d with
  | [] => None
  | (k', v) :: d' => if decide (k' = k) then Some v else dict_get d' k
  end.

(** The number of target rows (examples) of a stream of batches. *)
Definition stream_rows (stream : list (Batch * Forward)) : nat :=
  fold_right (fun bf n => (length (trg (fst bf)) + n)%nat) 0%nat stream.

(** The small run with boosting switched off. *)
Definition plain_params : HyperParams :=
  {| epochs := 2; boost := false; boost_warmup := 0; boost_percent := 1 # 2;
     pad_token := 1; eos_index := 3; itos := demo_itos;
     tgt_vocab_size := 8; model_dir := "model" |}.



(** The keys that the rows of a stream stand for: the reverse-tokenized
    source paired with the reverse-tokenized target, row by row. *)
Definition stream_keys (params : HyperParams) (stream : list (Batch * Forward))
  : list ExampleKey :=
  flat_map (fun bf =>
              match batch_reverse_tokenization params (src (fst bf)),
                    batch_reverse_tokenization params (trg (fst bf)) with
              | Ok s, Ok t => zip s t
              | _, _ => []
              end) stream.

(** Two epochs of the small run without boosting, and the four-epoch run
    with the failing decoder, which is aborted in its third epoch. *)
Definition plain_after : Loop :=
  final_state (train_loop plain_params demo_world (seq 0 2)
                 (enter_loop plain_params demo_trainer)).


(** * Properties *)

(** ** Reverse tokenization *)




(** ** The teacher-forcing shape check *)






Lemma flatten_and_check_spec params fw target :
  flatten_and_check params fw target =
  match flat_output_rows params (out_shape fw) with
  | Raise e => Raise e
  | Ok rows =>
      if rows =? Z.of_nat (length (flat_shifted_target target))
      then Ok (flat_shifted_target target) else Raise AssertionError
  end.
Proof.
  unfold flatten_and_check.
  destruct (flat_output_rows params (out_shape fw)) as [rows|e]; simpl; [|reflexivity].
  destruct (rows =? _); reflexivity.
Qed.


Lemma counts_flatten_ok params batch fw :
  counts_match params (batch, fw) = true ->
  flatten_and_check params fw (trg batch) = Ok (flat_shifted_target (trg batch)).
Proof.
  rewrite flatten_and_check_spec. unfold counts_match. simpl.
  destruct (flat_output_rows params (out_shape fw)) as [rows|e]; [|discriminate].
  intros ->. reflexivity.
Qed.















(** ** The epoch loop: what one completed epoch consists of *)

Section OrchestratorFacts.

Variable params : HyperParams.
Variable world : Collaborators.

Lemma train_one_epoch_completed epoch l l' :
  train_one_epoch params world epoch l = Completed l' ->
  exists t1 it train_loss_avg hard its val_loss_avg t4 t6,
    select_iterator params epoch
      {| self := set_epoch epoch (self l);
         hard_training_instances := hard_training_instances l |} = Ok (t1, it)
    /\ train_epoch params (self_iterations t1) (batches world epoch it)
       = Ok (train_loss_avg, hard, its)
    /\ validate params (dev_batches world epoch) = Ok val_loss_avg
    /\ periodic_decode world (after_validation epoch train_loss_avg val_loss_avg its t1)
       = Ok t4
    /\ checkpoint_epoch params world epoch val_loss_avg (scheduler_step val_loss_avg t4)
       = Ok t6
    /\ l' = {| self := t6; hard_training_instances := Some hard |}.
Proof.
  unfold train_one_epoch.
  destruct (select_iterator _ _ _) as [[t1 it]|e] eqn:Hs; [|discriminate].
  destruct (train_epoch _ _ _) as [[[tl hard] its]|e] eqn:Ht; [|discriminate].
  destruct (validate _ _) as [val|e] eqn:Hv; [|discriminate].
  destruct (periodic_decode _ _) as [t4|e] eqn:Hd; [|discriminate].
  destruct (checkpoint_epoch _ _ _ _ _) as [t6|e] eqn:Hc; [|discriminate].
  intros [= <-]. exists t1, it, tl, hard, its, val, t4, t6.
  split; [reflexivity|]. split; [exact Ht|]. split; [reflexivity|].
  split; [exact Hd|]. split; [exact Hc|reflexivity].
Qed.

Lemma select_iterator_off epoch l :
  boosting_applies params epoch = false ->
  select_iterator params epoch l
  = Ok (self l, {| dataset := self_train_iter (self l); made_by_boosting := false |}).
Proof. unfold select_iterator. now intros ->. Qed.

Lemma select_iterator_on epoch l hard :
  boosting_applies params epoch = true ->
  hard_training_instances l = Some hard ->
  select_iterator params epoch l
  = Ok (set_train_iter (data_extend (self_train_iter (self l)) (create_example_objs hard))
          (self l),
        create_boosted_dataset
          (data_extend (self_train_iter (self l)) (create_example_objs hard))).
Proof. unfold select_iterator. now intros -> ->. Qed.

Lemma periodic_decode_frame t t' :
  periodic_decode world t = Ok t' ->
  self_train_iter t' = self_train_iter t
  /\ self_best_val_loss t' = self_best_val_loss t
  /\ disk t' = disk t
  /\ self_scheduler t' = self_scheduler t
  /\ exists texts, self_summary_writer t' = self_summary_writer t ++ texts
                   /\ Forall (fun en => exists tag s n, en = Text tag s n) texts.
Proof.
  unfold periodic_decode.
  destruct (_ =? 0); [discriminate|].
  destruct (_ =? 0).
  - destruct (greedy_decode world (self_epoch t)) as [tr|e]; [|discriminate].
    intros [= <-]. repeat split; try reflexivity.
    eexists; split; [reflexivity|].
    apply Forall_forall. intros en Hin. apply list_elem_of_In, in_map_iff in Hin.
    destruct Hin as (x & <- & _). eauto.
  - intros [= <-]. repeat split; try reflexivity.
    exists []. split; [now rewrite app_nil_r|constructor].
Qed.

Lemma scheduler_step_frame v t :
  self_train_iter (scheduler_step v t) = self_train_iter t
  /\ self_best_val_loss (scheduler_step v t) = self_best_val_loss t
  /\ disk (scheduler_step v t) = disk t
  /\ self_summary_writer (scheduler_step v t) = self_summary_writer t.
Proof. unfold scheduler_step. destruct (self_scheduler t); repeat split. Qed.

Lemma checkpoint_epoch_frame epoch v t t' :
  checkpoint_epoch params world epoch v t = Ok t' ->
  self_train_iter t' = self_train_iter t
  /\ self_summary_writer t' = self_summary_writer t
  /\ self_scheduler t' = self_scheduler t.
Proof.
  unfold checkpoint_epoch.
  destruct (save_checkpoint _ _ _ _) as [fs|e]; [|discriminate]. cbn [bind].
  destruct (float_lt _ _); intros [= <-]; repeat split.
Qed.

(** A completed epoch leaves [hard_training_instances] bound, and without
    boosting it leaves the example collection of [train_iter] alone. *)
Lemma train_one_epoch_no_boost epoch l l' :
  boosting_applies params epoch = false ->
  train_one_epoch params world epoch l = Completed l' ->
  self_train_iter (self l') = self_train_iter (self l)
  /\ is_Some (hard_training_instances l').
Proof.
  intros Hoff H.
  apply train_one_epoch_completed in H
    as (t1 & it & tl & hard & its & val & t4 & t6 & Hsel & _ & _ & Hd & Hc & ->).
  rewrite select_iterator_off in Hsel by assumption. injection Hsel as <- <-.
  apply periodic_decode_frame in Hd as (Hd & _).
  apply checkpoint_epoch_frame in Hc as (Hc & _).
  destruct (scheduler_step_frame val t4) as (Hs & _).
  cbn [self hard_training_instances]. split; [|eauto].
  rewrite Hc, Hs, Hd. reflexivity.
Qed.

Lemma train_loop_warmup n start l l' :
  (forall e, (start <= e < start + n)%nat -> boosting_applies params e = false) ->
  train_loop params world (seq start n) l = Completed l' ->
  self_train_iter (self l') = self_train_iter (self l)
  /\ (is_Some (hard_training_instances l) -> is_Some (hard_training_instances l'))
  /\ ((0 < n)%nat -> is_Some (hard_training_instances l')).
Proof.
  revert start l. induction n as [|n IH]; intros start l Hoff; cbn [seq train_loop].
  - intros [= <-]. repeat split; [auto|lia].
  - destruct (train_one_epoch params world start l) as [l1|e l1] eqn:H1; [|discriminate].
    intros Hrest.
    apply train_one_epoch_no_boost in H1 as [Hd Hh]; [|apply Hoff; lia].
    apply IH in Hrest as (Hd' & Hh' & _); [|intros e He; apply Hoff; lia].
    rewrite Hd', Hd. auto.
Qed.

End OrchestratorFacts.

(** ** Warmup *)

(** C9. With boosting enabled and a warmup count [w >= 0], a run of
    [n <= w] completed epochs has not touched the example collection of
    [train_iter], each of the epochs 1..w trains on [train_iter] itself,
    and after [w] completed epochs the next one, epoch [w+1], extends the
    collection by last epoch's hard examples and trains on the iterator
    made by [create_boosted_dataset]. *)
Theorem warmup_gates_boosting params world (t : Trainer) (n : nat) (l : Loop) :
  boost params = true ->
  0 <= boost_warmup params ->
  Z.of_nat n <= boost_warmup params ->
  train_loop params world (seq 0 n) (enter_loop params t) = Completed l ->
  self_train_iter (self l) = self_train_iter t
  /\ (forall e l0, Z.of_nat e + 1 <= boost_warmup params ->
        select_iterator params e l0
        = Ok (self l0, {| dataset := self_train_iter (self l0);
                          made_by_boosting := false |}))
  /\ (Z.of_nat n = boost_warmup params ->
      exists hard,
        hard_training_instances l = Some hard
        /\ select_iterator params n l
           = Ok (set_train_iter
                   (data_extend (self_train_iter (self l)) (create_example_objs hard))
                   (self l),
                 create_boosted_dataset
                   (data_extend (self_train_iter (self l)) (create_example_objs hard)))).
Proof.
  intros Hb Hw Hn Hrun.
  assert (Hoff : forall e, Z.of_nat e + 1 <= boost_warmup params ->
                           boosting_applies params e = false).
  { intros e He. unfold boosting_applies. rewrite Hb. simpl. apply Z.ltb_ge. lia. }
  apply train_loop_warmup in Hrun as (Hd & Hkeep & Hpos).
  2:{ intros e He. apply Hoff. lia. }
  split; [exact Hd|]. split.
  - intros e l0 He. apply select_iterator_off. now apply Hoff.
  - intros Heq.
    assert (Hsome : is_Some (hard_training_instances l)).
    { destruct n as [|n]; [|apply Hpos; lia].
      apply Hkeep. unfold enter_loop. cbn [hard_training_instances].
      replace (boost_warmup params) with 0 by lia. simpl. eauto. }
    destruct Hsome as [hard Hhard]. exists hard. split; [exact Hhard|].
    apply select_iterator_on; [|exact Hhard].
    unfold boosting_applies. rewrite Hb. simpl. apply Z.ltb_lt. lia.
Qed.

Lemma warmup_gates_boosting_witness :
  self_train_iter (self warmup_run) = demo_data
  /\ exists hard,
       hard_training_instances warmup_run = Some hard
       /\ select_iterator (demo_params 2 (1 # 2) 2) 2 warmup_run
          = Ok (set_train_iter (data_extend demo_data (create_example_objs hard))
                  (self warmup_run),
                create_boosted_dataset
                  (data_extend demo_data (create_example_objs hard))).
Proof.
  assert (Hrun : train_loop (demo_params 2 (1 # 2) 2) demo_world (seq 0 2)
                   (enter_loop (demo_params 2 (1 # 2) 2) demo_trainer)
                 = Completed warmup_run) by (vm_compute; reflexivity).
  destruct (warmup_gates_boosting (demo_params 2 (1 # 2) 2) demo_world demo_trainer
              2 warmup_run eq_refl ltac:(simpl; lia) ltac:(simpl; lia) Hrun)
    as (Hd & _ & Hnext).
  split; [exact Hd|].
  destruct (Hnext eq_refl) as (hard & Hh & Hs).
  exists hard. split; [exact Hh|].
  rewrite Hd in Hs. exact Hs.
Defined.

(** ** The checkpoint manager *)

Lemma foldl_drop_lookup (ks : list string) (m : gmap string tensor) (k : string) :
  foldl (fun sd key => if endswith key "weight_hh_l0" then delete key sd else sd) m ks !! k
  = if is_legacy k && bool_decide (k ∈ ks) then None else m !! k.
Proof.
  revert m. induction ks as [|a ks IH]; intros m; cbn [foldl].
  - rewrite bool_decide_eq_false_2 by apply not_elem_of_nil.
    now rewrite andb_false_r.
  - rewrite IH. unfold is_legacy.
    destruct (decide (a = k)) as [->|Hne].
    + rewrite (bool_decide_eq_true_2 (k ∈ k :: ks)) by apply list_elem_of_here.
      rewrite andb_true_r.
      destruct (endswith k "weight_hh_l0") eqn:Hk; simpl.
      * destruct (bool_decide (k ∈ ks)); [reflexivity|apply lookup_delete_eq].
      * reflexivity.
    + assert (Hiff : bool_decide (k ∈ a :: ks) = bool_decide (k ∈ ks)).
      { apply bool_decide_ext. rewrite elem_of_cons.
        split; [intros [Heq|Hin]; [congruence|exact Hin]|now right]. }
      rewrite Hiff.
      destruct (endswith k "weight_hh_l0" && bool_decide (k ∈ ks)); [reflexivity|].
      destruct (endswith a "weight_hh_l0"); [|reflexivity].
      now apply lookup_delete_ne.
Qed.

(** The loop deletes exactly the legacy keys. *)
Lemma drop_legacy_keys_lookup (sd : gmap string tensor) (k : string) :
  drop_legacy_keys sd !! k = if is_legacy k then None else sd !! k.
Proof.
  unfold drop_legacy_keys. rewrite foldl_drop_lookup.
  destruct (is_legacy k); [|reflexivity]. simpl.
  destruct (bool_decide (k ∈ map fst (map_to_list sd))) eqn:Hin; [reflexivity|].
  apply bool_decide_eq_false_1 in Hin.
  destruct (sd !! k) as [v|] eqn:Hv; [|reflexivity].
  exfalso. apply Hin. apply list_elem_of_In, in_map_iff.
  exists (k, v). split; [reflexivity|].
  now apply list_elem_of_In, elem_of_map_to_list.
Qed.

Lemma drop_legacy_keys_id (sd : gmap string tensor) :
  (forall k, is_Some (sd !! k) -> is_legacy k = false) ->
  drop_legacy_keys sd = sd.
Proof.
  intros Hno. apply map_eq. intros k. rewrite drop_legacy_keys_lookup.
  destruct (is_legacy k) eqn:Hk; [|reflexivity].
  destruct (sd !! k) eqn:Hv; [|reflexivity].
  rewrite Hno in Hk by eauto. discriminate.
Qed.

Lemma same_shapes_refl (sd : gmap string tensor) : same_shapes sd sd = true.
Proof.
  unfold same_shapes. apply forallb_forall. intros [k v] Hin.
  apply list_elem_of_In, elem_of_map_to_list in Hin. simpl.
  rewrite Hin. apply Nat.eqb_refl.
Qed.

Lemma accepts_self (m : Model) : accepts m (parameters m) = true.
Proof.
  unfold accepts. rewrite same_shapes_refl.
  now rewrite bool_decide_eq_true_2.
Qed.

Lemma load_state_dict_accepts target sd :
  accepts target sd = true -> load_state_dict target sd = Ok {| parameters := sd |}.
Proof.
  unfold accepts, load_state_dict. intros H. apply andb_prop in H as [-> ->]. reflexivity.
Qed.


(** After [save_checkpoint] the epoch's file holds the state that was
    passed in. *)
Lemma save_checkpoint_writes state ep is_best dir fs fs' :
  ck_epoch state = Some ep ->
  save_checkpoint state is_best dir fs = Ok fs' ->
  files fs' !! path_join dir ("epoch_" +:+ str_of_int ep +:+ ".pth.tar") = Some state.
Proof.
  unfold save_checkpoint. intros ->.
  destruct is_best; intros [= <-]; cbn [files].
  - destruct (decide (path_join dir "best.pth.tar"
                      = path_join dir ("epoch_" +:+ str_of_int ep +:+ ".pth.tar")))
      as [->|Hne].
    + apply lookup_insert_eq.
    + rewrite lookup_insert_ne by assumption. apply lookup_insert_eq.
  - apply lookup_insert_eq.
Qed.


(** C5. Given a path that names nothing, [load_checkpoint] stops before it
    touches model or optimizer; what it raises is the [TypeError] Python
    gives for [raise] of a string, not an exception that carries the
    "File doesn't exist" text. *)
Theorem load_checkpoint_missing_path fs model (p : string) optimizer :
  path_exists fs p = false ->
  load_checkpoint fs model (Path p) optimizer
  = Aborted (TypeError "exceptions must derive from BaseException")
      {| ls_model := model; ls_optimizer := optimizer; ls_mapping := None |}.
Proof. intros H. unfold load_checkpoint. now rewrite H. Qed.

Lemma load_checkpoint_missing_path_witness :
  load_checkpoint empty_disk gru_fresh (Path "model/checkpoints/best.pth.tar") None
  = Aborted (TypeError "exceptions must derive from BaseException")
      {| ls_model := gru_fresh; ls_optimizer := None; ls_mapping := None |}.
Proof.
  apply (load_checkpoint_missing_path empty_disk gru_fresh
           "model/checkpoints/best.pth.tar" None).
  reflexivity.
Defined.

(** C10. Given a mapping, [load_checkpoint] leaves the caller with that
    mapping changed in place: its state dict has lost exactly the keys
    ending in "weight_hh_l0" and kept every other entry, and the epoch and
    the optimizer entry are as they were. This holds however the call ends,
    so the deletion is done before the model is restored. *)
Theorem load_checkpoint_mutates_mapping fs model (c : Checkpoint) optimizer
    (state_dict : gmap string tensor) :
  ck_state_dict c = Some state_dict ->
  exists c' state_dict',
    ls_mapping (final_state (load_checkpoint fs model (Mapping c) optimizer)) = Some c'
    /\ ck_state_dict c' = Some state_dict'
    /\ (forall key, endswith key "weight_hh_l0" = true -> state_dict' !! key = None)
    /\ (forall key, endswith key "weight_hh_l0" = false ->
          state_dict' !! key = state_dict !! key)
    /\ ck_epoch c' = ck_epoch c
    /\ ck_optim_dict c' = ck_optim_dict c.
Proof.
  intros Hsd.
  exists {| ck_epoch := ck_epoch c;
            ck_state_dict := Some (drop_legacy_keys state_dict);
            ck_optim_dict := ck_optim_dict c |}, (drop_legacy_keys state_dict).
  split.
  - unfold load_checkpoint, restore_from. rewrite Hsd.
    destruct (load_state_dict model (drop_legacy_keys state_dict)); [|reflexivity].
    destruct optimizer as [o|]; [|reflexivity].
    cbn [ck_optim_dict].
    destruct (ck_optim_dict c); reflexivity.
  - split; [reflexivity|].
    split; [|split; [|split; reflexivity]].
    + intros key Hk. rewrite drop_legacy_keys_lookup. unfold is_legacy. now rewrite Hk.
    + intros key Hk. rewrite drop_legacy_keys_lookup. unfold is_legacy. now rewrite Hk.
Qed.

Lemma load_checkpoint_mutates_mapping_witness :
  exists c' state_dict',
    ls_mapping (final_state (load_checkpoint empty_disk gru_fresh (Mapping gru_state) None))
    = Some c'
    /\ ck_state_dict c' = Some state_dict'
    /\ state_dict' !! "rnn.weight_hh_l0" = None
    /\ state_dict' !! "fc.weight" = Some [7].
Proof.
  destruct (load_checkpoint_mutates_mapping empty_disk gru_fresh gru_state None
              (model_state_dict gru_live) eq_refl)
    as (c' & sd' & Hm & Hsd & Hdel & Hkeep & _).
  exists c', sd'. split; [exact Hm|]. split; [exact Hsd|]. split.
  - apply Hdel. reflexivity.
  - rewrite Hkeep by reflexivity. reflexivity.
Defined.




(** ** The periodic sample decode *)

Lemma select_iterator_frame params epoch l t1 it :
  select_iterator params epoch l = Ok (t1, it) ->
  self_epoch t1 = self_epoch (self l)
  /\ self_decode_every_num_epochs t1 = self_decode_every_num_epochs (self l)
  /\ self_best_val_loss t1 = self_best_val_loss (self l)
  /\ self_scheduler t1 = self_scheduler (self l)
  /\ self_summary_writer t1 = self_summary_writer (self l)
  /\ disk t1 = disk (self l).
Proof.
  unfold select_iterator. destruct (boosting_applies params epoch).
  - destruct (hard_training_instances l); [|discriminate].
    intros [= <- <-]. repeat split.
  - intros [= <- <-]. repeat split.
Qed.





(** ** The best checkpoint *)

Lemma append_inj_l (p x y : string) : p +:+ x = p +:+ y -> x = y.
Proof.
  induction p as [|c p IH]; simpl; [auto|].
  intros [= H]. auto.
Qed.

(** Under one directory, two relative file names give two paths. *)
Lemma path_join_inj (a b1 b2 : string) :
  String.prefix "/" b1 = false -> String.prefix "/" b2 = false ->
  path_join a b1 = path_join a b2 -> b1 = b2.
Proof.
  unfold path_join. intros -> ->.
  destruct (_ || _).
  - apply append_inj_l.
  - intros H. apply append_inj_l in H. now apply (append_inj_l "/") in H.
Qed.

Lemma best_file_not_epoch_file dir ep :
  path_join dir "best.pth.tar" <> path_join dir ("epoch_" +:+ str_of_int ep +:+ ".pth.tar").
Proof.
  intros H. apply path_join_inj in H; [discriminate H|reflexivity|reflexivity].
Qed.

Lemma val_losses_app a b : val_losses (a ++ b) = val_losses a ++ val_losses b.
Proof. unfold val_losses. apply flat_map_app. Qed.

Lemma val_losses_texts texts :
  Forall (fun en => exists tag s n, en = Text tag s n) texts -> val_losses texts = [].
Proof.
  induction 1 as [|en texts (tag & s & n & ->) _ IH]; [reflexivity|].
  simpl. exact IH.
Qed.

Section BestCheckpoint.

Variable params : HyperParams.
Variable world : Collaborators.

Lemma checkpoint_epoch_effect epoch v t t' :
  checkpoint_epoch params world epoch v t = Ok t' ->
  let is_best := float_lt (Finite v) (self_best_val_loss t) in
  self_best_val_loss t' = (if is_best then Finite v else self_best_val_loss t)
  /\ files (disk t') !! best_file params
     = (if is_best then Some (epoch_state world epoch)
        else files (disk t) !! best_file params)
  /\ files (disk t') !! epoch_file (checkpoint_dir params) (Z.of_nat epoch + 1)
     = Some (epoch_state world epoch).
Proof.
  unfold checkpoint_epoch, save_checkpoint. cbn [ck_epoch bind].
  fold (epoch_state world epoch).
  destruct (float_lt (Finite v) (self_best_val_loss t)) eqn:Hb;
    intros [= <-]; cbn [self_best_val_loss set_best_val_loss set_disk disk files].
  - split; [reflexivity|]. split; [apply lookup_insert_eq|].
    rewrite lookup_insert_ne by apply best_file_not_epoch_file.
    apply lookup_insert_eq.
  - split; [reflexivity|]. split; [|apply lookup_insert_eq].
    unfold best_file.
    rewrite lookup_insert_ne
      by (intros H; symmetry in H; revert H; apply best_file_not_epoch_file).
    destruct (path_exists (disk t) (checkpoint_dir params)); reflexivity.
Qed.

(** What a completed epoch does to the log, the best loss and the best
    file. *)
Lemma train_one_epoch_best epoch l l' :
  train_one_epoch params world epoch l = Completed l' ->
  exists v,
    validate params (dev_batches world epoch) = Ok v
    /\ val_losses (self_summary_writer (self l'))
       = val_losses (self_summary_writer (self l)) ++ [v]
    /\ let is_best := float_lt (Finite v) (self_best_val_loss (self l)) in
       self_best_val_loss (self l')
       = (if is_best then Finite v else self_best_val_loss (self l))
       /\ files (disk (self l')) !! best_file params
          = (if is_best then Some (epoch_state world epoch)
             else files (disk (self l)) !! best_file params).
Proof.
  intros H.
  apply train_one_epoch_completed in H
    as (t1 & it & tl & hard & its & val & t4 & t6 & Hsel & _ & Hval & Hd & Hc & ->).
  apply select_iterator_frame in Hsel as (_ & _ & Hb1 & _ & Hw1 & Hk1).
  cbn [self set_epoch self_best_val_loss self_summary_writer disk] in Hb1, Hw1, Hk1.
  apply periodic_decode_frame in Hd as (_ & Hb4 & Hk4 & _ & texts & Hw4 & Htexts).
  destruct (scheduler_step_frame val t4) as (_ & Hb5 & Hk5 & Hw5).
  pose proof (checkpoint_epoch_frame _ _ _ _ _ _ Hc) as (_ & Hw6 & _).
  apply checkpoint_epoch_effect in Hc as (Hb6 & Hf6 & _).
  cbn [after_validation self_best_val_loss self_summary_writer disk
       add_summary set_iterations] in Hb4, Hk4, Hw4.
  exists val. split; [exact Hval|]. cbn [self]. split.
  - rewrite Hw6, Hw5, Hw4, Hw1.
    rewrite !val_losses_app, (val_losses_texts _ Htexts). simpl.
    now rewrite !app_nil_r.
  - rewrite Hb5, Hb4, Hb1 in Hb6. rewrite Hk5, Hk4, Hk1 in Hf6.
    rewrite Hb5, Hb4, Hb1 in Hf6. split; assumption.
Qed.

Lemma is_minimum_of_nil : is_minimum_of [] PosInf.
Proof. intros v. simpl. split; [intros _ u []|reflexivity]. Qed.

Lemma float_lt_finite (a b : Q) : float_lt (Finite a) (Finite b) = true <-> (a < b)%Q.
Proof.
  simpl. rewrite negb_true_iff. split.
  - intros H. apply Qnot_le_lt. intros Hle. apply Qle_bool_iff in Hle. congruence.
  - intros H. destruct (Qle_bool b a) eqn:Hle; [|reflexivity].
    apply Qle_bool_iff in Hle. exfalso. exact (Qlt_not_le _ _ H Hle).
Qed.

(** The update of [best_val_loss] keeps it the minimum of the losses
    seen. *)
Lemma is_minimum_of_step seen best (v0 : Q) :
  is_minimum_of seen best ->
  is_minimum_of (seen ++ [v0])
    (if float_lt (Finite v0) best then Finite v0 else best).
Proof.
  intros Hmin v.
  destruct (float_lt (Finite v0) best) eqn:Hlt.
  - rewrite float_lt_finite. split.
    + intros Hv u Hu. apply in_app_or in Hu as [Hu|[<-|[]]]; [|exact Hv].
      apply Qlt_trans with v0; [exact Hv|]. now apply (Hmin v0).
    + intros H. apply H, in_or_app. right. now left.
  - rewrite (Hmin v). split.
    + intros Hv u Hu. apply in_app_or in Hu as [Hu|[<-|[]]]; [now apply Hv|].
      destruct best as [b|]; [|discriminate Hlt].
      apply (Hmin v) in Hv. apply float_lt_finite in Hv.
      apply Qlt_le_trans with b; [exact Hv|].
      apply Qnot_lt_le. intros Hc. apply float_lt_finite in Hc. congruence.
    + intros H u Hu. apply H, in_or_app. now left.
Qed.

Lemma train_loop_minimum n start l l' :
  is_minimum_of (val_losses (self_summary_writer (self l))) (self_best_val_loss (self l)) ->
  train_loop params world (seq start n) l = Completed l' ->
  is_minimum_of (val_losses (self_summary_writer (self l')))
                (self_best_val_loss (self l'))
  /\ length (val_losses (self_summary_writer (self l')))
     = (length (val_losses (self_summary_writer (self l))) + n)%nat.
Proof.
  revert start l. induction n as [|n IH]; intros start l Hmin; cbn [seq train_loop].
  - intros [= <-]. split; [exact Hmin|lia].
  - destruct (train_one_epoch params world start l) as [l1|e l1] eqn:H1; [|discriminate].
    intros Hrest.
    apply train_one_epoch_best in H1 as (v & _ & Hw & Hb & _).
    apply IH in Hrest as [Hmin' Hlen].
    + split; [exact Hmin'|]. rewrite Hlen, Hw, List.length_app. simpl. lia.
    + rewrite Hw, Hb. now apply is_minimum_of_step.
Qed.

End BestCheckpoint.

(** C1. In a run of a freshly built trainer, let epoch [n+1] complete after
    [n] completed epochs. Its validation loss [v] is logged after the [n]
    earlier ones, and for the flag [is_best] of that epoch: it is true if
    and only if [v] is strictly below every earlier validation loss of the
    run (always, when there is none); the best file holds this epoch's
    checkpoint if [is_best] and is what it was if not; and the tracked
    best loss becomes [v] if [is_best] and stays if not. *)
Theorem is_best_iff_strict_minimum params world (train_iter : list Example)
    (scheduler : bool) (fs : FileSystem) (n : nat) (l l' : Loop) :
  train_loop params world (seq 0 n)
    (enter_loop params (init_trainer train_iter scheduler fs)) = Completed l ->
  train_one_epoch params world n l = Completed l' ->
  exists (v : Q) (is_best : bool),
    validate params (dev_batches world n) = Ok v
    /\ is_best = float_lt (Finite v) (self_best_val_loss (self l))
    /\ length (val_losses (self_summary_writer (self l))) = n
    /\ val_losses (self_summary_writer (self l'))
       = val_losses (self_summary_writer (self l)) ++ [v]
    /\ (is_best = true <->
        forall u, In u (val_losses (self_summary_writer (self l))) -> (v < u)%Q)
    /\ files (disk (self l')) !! best_file params
       = (if is_best then Some (epoch_state world n)
          else files (disk (self l)) !! best_file params)
    /\ self_best_val_loss (self l')
       = (if is_best then Finite v else self_best_val_loss (self l)).
Proof.
  intros Hrun Hstep.
  apply train_loop_minimum in Hrun as [Hmin Hlen]; [|apply is_minimum_of_nil].
  apply train_one_epoch_best in Hstep as (v & Hval & Hw & Hb & Hf).
  exists v, (float_lt (Finite v) (self_best_val_loss (self l))).
  split; [exact Hval|]. split; [reflexivity|]. split; [exact Hlen|].
  split; [exact Hw|]. split; [apply Hmin|]. split; assumption.
Qed.

(** Validation losses 2.5, 2.1, 2.3: the third epoch is not a best one. *)
Lemma is_best_iff_strict_minimum_witness :
  files (disk (self (demo_after 3))) !! best_file best_params
  = files (disk (self (demo_after 2))) !! best_file best_params
  /\ self_best_val_loss (self (demo_after 3)) = self_best_val_loss (self (demo_after 2))
  /\ ~ (forall u, In u (val_losses (self_summary_writer (self (demo_after 2)))) ->
          (23 / 10 < u)%Q).
Proof.
  destruct (is_best_iff_strict_minimum best_params demo_world demo_data true empty_disk
              2 (demo_after 2) (demo_after 3))
    as (v & is_best & Hval & His & _ & _ & Hiff & Hfile & Hbest).
  - vm_compute. reflexivity.
  - vm_compute. reflexivity.
  - assert (Hv : v = (23 / 10)%Q)
      by (vm_compute in Hval; injection Hval as <-; reflexivity).
    subst v.
    assert (Hfalse : is_best = false) by (rewrite His; vm_compute; reflexivity).
    rewrite Hfalse in Hfile, Hbest, Hiff.
    split; [exact Hfile|]. split; [exact Hbest|].
    intros H. apply Hiff in H. discriminate H.
Defined.

(** ** Growth of the boosted collection *)

Section Growth.

Variable params : HyperParams.
Variable world : Collaborators.





End Growth.




(** ** The ranker *)

Lemma insert_desc_perm x l : Permutation (insert_desc x l) (x :: l).
Proof.
  induction l as [|y l IH]; simpl; [reflexivity|].
  destruct (Qle_bool (snd y) (snd x)); [reflexivity|].
  rewrite IH. apply perm_swap.
Qed.

Lemma sorted_desc_perm items : Permutation (sorted_desc items) items.
Proof.
  induction items as [|x items IH]; simpl; [reflexivity|].
  rewrite insert_desc_perm. now constructor.
Qed.

Lemma insert_desc_sorted x l :
  StronglySorted score_ge l -> StronglySorted score_ge (insert_desc x l).
Proof.
  induction 1 as [|y l Hl IH Hy]; simpl.
  - repeat constructor.
  - destruct (Qle_bool (snd y) (snd x)) eqn:Hle.
    + apply Qle_bool_iff in Hle.
      constructor; [now constructor|].
      constructor; [exact Hle|].
      apply List.Forall_forall. intros z Hz.
      eapply List.Forall_forall in Hy; [|exact Hz].
      unfold score_ge in *. now apply Qle_trans with (snd y).
    + constructor; [exact IH|].
      apply List.Forall_forall. intros z Hz.
      apply (Permutation_in _ (insert_desc_perm x l)) in Hz as [<-|Hz].
      * unfold score_ge. apply Qlt_le_weak, Qnot_le_lt.
        intros Hc. apply Qle_bool_iff in Hc. congruence.
      * eapply List.Forall_forall in Hy; eauto.
Qed.

Lemma sorted_desc_sorted items : StronglySorted score_ge (sorted_desc items).
Proof.
  induction items as [|x items IH]; simpl; [constructor|].
  now apply insert_desc_sorted.
Qed.







(** * Further properties of the code *)

(** ** The epoch driver: sums, counters and empty streams *)

Lemma train_batch_ok params acc bf acc' :
  train_batch params acc bf = Ok acc' ->
  total_loss acc' = (total_loss acc + batch_loss (snd bf))%Q
  /\ n_word_total acc' = n_word_total acc + batch_words params bf
  /\ iterations acc' = iterations acc + 1
  /\ batch_words params bf <> 0
  /\ (boost params = false -> example_to_perplexity acc' = example_to_perplexity acc).
Proof.
  destruct bf as [batch fw]. unfold train_batch, batch_words. cbn [fst snd].
  destruct (if boost params then _ else _) as [ks|e]; [|discriminate]. cbn [bind].
  rewrite flatten_and_check_spec.
  destruct (flat_output_rows params (out_shape fw)) as [rows|e]; [|discriminate].
  destruct (rows =? _); [|discriminate]. cbn [bind].
  destruct (if boost params then record_perplexities _ _ _ _ _ else _) as [d|e] eqn:Hd;
    [|discriminate]. cbn [bind].
  destruct (count_non_pad params _ =? 0) eqn:Hz; [discriminate|].
  intros [= <-]. cbn. apply Z.eqb_neq in Hz.
  repeat split; try assumption.
  intros Hb. rewrite Hb in Hd. now injection Hd as <-.
Qed.

Lemma train_batches_ok params stream acc acc' :
  train_batches params acc stream = Ok acc' ->
  (total_loss acc' == total_loss acc + stream_loss stream)%Q
  /\ n_word_total acc' = n_word_total acc + stream_words params stream
  /\ iterations acc' = iterations acc + Z.of_nat (length stream)
  /\ Forall (fun bf => batch_words params bf <> 0) stream
  /\ (boost params = false -> example_to_perplexity acc' = example_to_perplexity acc).
Proof.
  revert acc. induction stream as [|bf stream IH]; intros acc.
  - intros [= <-]. cbn. repeat split; try lia; try constructor. ring.
  - cbn [train_batches]. destruct (train_batch params acc bf) as [acc1|e] eqn:Hb; [|discriminate].
    cbn [bind]. intros Hrest.
    apply train_batch_ok in Hb as (Hl & Hw & Hi & Hnz & He).
    apply IH in Hrest as (Hl' & Hw' & Hi' & Hnz' & He').
    change (stream_loss (bf :: stream))
      with (batch_loss (snd bf) + stream_loss stream)%Q.
    change (stream_words params (bf :: stream))
      with (batch_words params bf + stream_words params stream).
    change (length (bf :: stream)) with (S (length stream)).
    split; [rewrite Hl', Hl; ring|]. split; [lia|]. split; [lia|].
    split; [now constructor|]. intros Hoff. now rewrite He', He.
Qed.

Lemma train_epoch_no_boost_hard params its data_iter loss hard its' :
  boost params = false ->
  train_epoch params its data_iter = Ok (loss, hard, its') -> hard = [].
Proof.
  intros Hoff. unfold train_epoch.
  destruct (train_batches params _ data_iter) as [acc|e]; [|discriminate].
  cbn [bind]. destruct (_ =? 0); [discriminate|].
  rewrite Hoff. now intros [= _ <- _].
Qed.

(** X1. The loss per word that [train_epoch] returns is the summed batch
    loss divided by the number of non-padding target words of the whole
    stream, which is positive, and the iteration counter has advanced by
    one per batch. Without boosting the hard examples are empty. *)
Theorem train_epoch_loss_per_word params (its its' : Z)
    (data_iter : list (Batch * Forward)) (loss : Q) (hard : list (ExampleKey * Q)) :
  train_epoch params its data_iter = Ok (loss, hard, its') ->
  (loss == stream_loss data_iter / inject_Z (stream_words params data_iter))%Q
  /\ 0 < stream_words params data_iter
  /\ its' = its + Z.of_nat (length data_iter)
  /\ (boost params = false -> hard = []).
Proof.
  unfold train_epoch.
  destruct (train_batches params _ data_iter) as [acc|e] eqn:Hrun; [|discriminate].
  cbn [bind].
  apply train_batches_ok in Hrun as (Hl & Hw & Hi & Hnz & He).
  cbn [total_loss n_word_total iterations example_to_perplexity] in Hl, Hw, Hi, He.
  destruct (n_word_total acc =? 0) eqn:Hz; [discriminate|].
  apply Z.eqb_neq in Hz. intros [= <- <- <-].
  assert (Hpos : 0 <= stream_words params data_iter).
  { clear. induction data_iter as [|bf l IH]; [cbn; lia|].
    change (stream_words params (bf :: l))
      with (batch_words params bf + stream_words params l).
    unfold batch_words, count_non_pad. lia. }
  split; [rewrite Hl, Hw; cbn; now rewrite Qplus_0_l|].
  split; [lia|]. split; [exact Hi|].
  intros Hoff. rewrite Hoff. reflexivity.
Qed.

Lemma train_epoch_loss_per_word_witness :
  exists loss hard its',
    train_epoch c8_params 10 [(c8_batch, c8_good); (c8_batch, c8_good)]
    = Ok (loss, hard, its')
    /\ (loss == 6 / 10)%Q /\ its' = 12 /\ hard = [].
Proof.
  eexists _, _, _. split; [vm_compute; reflexivity|].
  destruct (train_epoch_loss_per_word c8_params 10 12
              [(c8_batch, c8_good); (c8_batch, c8_good)] (6 # 10) [] eq_refl)
    as (Hl & _ & Hi & Hh).
  split; [reflexivity|]. split; [exact Hi|exact (Hh eq_refl)].
Defined.

Lemma validate_batches_ok params stream acc acc' :
  validate_batches params acc stream = Ok acc' ->
  (fst acc' == fst acc + stream_loss stream)%Q
  /\ snd acc' = snd acc + stream_words params stream.
Proof.
  revert acc. induction stream as [|[batch fw] stream IH]; intros acc.
  - intros [= <-]. cbn. split; [ring|lia].
  - cbn [validate_batches validate_batch].
    rewrite flatten_and_check_spec.
    destruct (flat_output_rows params (out_shape fw)) as [rows|e]; [|discriminate].
    destruct (rows =? _); [|discriminate]. cbn [bind].
    destruct (count_non_pad params _ =? 0); [discriminate|]. cbn [bind].
    intros Hrest. apply IH in Hrest as (Hl & Hw). cbn [fst snd] in Hl, Hw.
    change (stream_loss ((batch, fw) :: stream))
      with (batch_loss fw + stream_loss stream)%Q.
    change (stream_words params ((batch, fw) :: stream))
      with (count_non_pad params (flat_shifted_target (trg batch))
            + stream_words params stream).
    split; [rewrite Hl; ring|lia].
Qed.

(** X2. The loss per word that [validate] returns is the summed batch loss
    of the validation stream divided by its number of non-padding target
    words, which is not zero. *)
Theorem validate_loss_per_word params (dev_iter : list (Batch * Forward)) (loss : Q) :
  validate params dev_iter = Ok loss ->
  (loss == stream_loss dev_iter / inject_Z (stream_words params dev_iter))%Q
  /\ stream_words params dev_iter <> 0.
Proof.
  unfold validate.
  destruct (validate_batches params _ dev_iter) as [acc|e] eqn:Hrun; [|discriminate].
  cbn [bind]. apply validate_batches_ok in Hrun as (Hl & Hw). cbn [fst snd] in Hl, Hw.
  destruct (snd acc =? 0) eqn:Hz; [discriminate|]. apply Z.eqb_neq in Hz.
  intros [= <-]. split; [|lia].
  rewrite Hl, Hw. cbn. now rewrite Qplus_0_l.
Qed.

Lemma validate_loss_per_word_witness :
  (25 / 10 == stream_loss (demo_dev_batches 0)
              / inject_Z (stream_words best_params (demo_dev_batches 0)))%Q.
Proof.
  apply (validate_loss_per_word best_params (demo_dev_batches 0) (25 / 10)).
  vm_compute. reflexivity.
Defined.

(** X3. A stream without batches makes both [train_epoch] and [validate]
    end in [ZeroDivisionError], and so does, in [validate], a batch that
    passes the shape check but whose shifted targets are all padding. *)
Theorem no_words_is_zero_division params (its : Z) (vacc : Q * Z)
    (batch : Batch) (fw : Forward) (rest : list (Batch * Forward)) :
  counts_match params (batch, fw) = true ->
  batch_words params (batch, fw) = 0 ->
  train_epoch params its [] = Raise ZeroDivisionError
  /\ validate params [] = Raise ZeroDivisionError
  /\ validate_batches params vacc ((batch, fw) :: rest) = Raise ZeroDivisionError
  /\ validate params ((batch, fw) :: rest) = Raise ZeroDivisionError.
Proof.
  intros Hc Hw. split; [reflexivity|]. split; [reflexivity|].
  assert (Hb : forall acc, validate_batch params acc (batch, fw) = Raise ZeroDivisionError).
  { intros acc. unfold validate_batch. rewrite (counts_flatten_ok _ _ _ Hc). cbn [bind].
    unfold batch_words in Hw. cbn [fst] in Hw. now rewrite Hw. }
  split.
  - cbn [validate_batches]. now rewrite Hb.
  - unfold validate. cbn [validate_batches]. now rewrite Hb.
Qed.

Lemma no_words_is_zero_division_witness :
  validate c8_params
    [({| src := [[2; 4; 3]]; trg := [[2; 1; 1]] |},
      {| out_shape := (1%nat, 3%nat, 5%nat); batch_loss := 0;
         perplexity_per_example := [] |})]
  = Raise ZeroDivisionError.
Proof.
  apply (no_words_is_zero_division c8_params 0 (0%Q, 0)
           {| src := [[2; 4; 3]]; trg := [[2; 1; 1]] |}
           {| out_shape := (1%nat, 3%nat, 5%nat); batch_loss := 0;
              perplexity_per_example := [] |} []); reflexivity.
Defined.

(** ** The ranker's mapping *)

Lemma dict_get_set_same d k v : dict_get (dict_set d k v) k = Some v.
Proof.
  induction d as [|[k' v'] d IH]; cbn.
  - now rewrite decide_True.
  - destruct (decide (k' = k)) as [->|Hne]; cbn.
    + now rewrite decide_True.
    + now rewrite decide_False.
Qed.

Lemma dict_get_set_other d k v k0 :
  k0 <> k -> dict_get (dict_set d k v) k0 = dict_get d k0.
Proof.
  intros Hne. induction d as [|[k' v'] d IH]; cbn.
  - now rewrite decide_False by congruence.
  - destruct (decide (k' = k)) as [->|Hk]; cbn.
    + now rewrite !decide_False by congruence.
    + destruct (decide (k' = k0)); [reflexivity|exact IH].
Qed.

Lemma dict_set_keys d k v :
  map fst (dict_set d k v)
  = if bool_decide (k ∈ map fst d) then map fst d else map fst d ++ [k].
Proof.
  induction d as [|[k' v'] d IH]; cbn.
  - rewrite bool_decide_eq_false_2; [reflexivity|apply not_elem_of_nil].
  - destruct (decide (k' = k)) as [->|Hk]; cbn.
    + rewrite bool_decide_eq_true_2; [reflexivity|apply list_elem_of_here].
    + rewrite IH. destruct (bool_decide (k ∈ map fst d)) eqn:Hin.
      * apply bool_decide_eq_true_1 in Hin.
        rewrite bool_decide_eq_true_2; [reflexivity|now apply list_elem_of_further].
      * apply bool_decide_eq_false_1 in Hin.
        rewrite bool_decide_eq_false_2; [reflexivity|].
        rewrite elem_of_cons. intros [Heq|Hin']; [congruence|contradiction].
Qed.

Lemma dict_set_nodup d k v :
  List.NoDup (map fst d) -> List.NoDup (map fst (dict_set d k v)).
Proof.
  intros Hnd. rewrite dict_set_keys.
  destruct (bool_decide (k ∈ map fst d)) eqn:Hin; [exact Hnd|].
  apply bool_decide_eq_false_1 in Hin.
  apply NoDup_ListNoDup, NoDup_app. apply NoDup_ListNoDup in Hnd.
  split; [exact Hnd|]. split.
  - intros x Hx Hx'. apply list_elem_of_singleton in Hx'. subst x. contradiction.
  - apply NoDup_singleton.
Qed.

Lemma dict_get_app a b k :
  dict_get (a ++ b) k
  = match dict_get a k with Some v => Some v | None => dict_get b k end.
Proof.
  induction a as [|[k' v'] a IH]; cbn; [reflexivity|].
  destruct (decide (k' = k)); [reflexivity|exact IH].
Qed.

(** A run of writes, read back: the last write to a key decides. *)
Lemma fold_dict_set_get kvs d k :
  dict_get (fold_left (fun d kv => dict_set d (fst kv) (snd kv)) kvs d) k
  = match dict_get (rev kvs) k with Some v => Some v | None => dict_get d k end.
Proof.
  revert d. induction kvs as [|[k1 v1] kvs IH]; intros d; [reflexivity|].
  cbn [fold_left fst snd rev]. rewrite IH, dict_get_app.
  destruct (dict_get (rev kvs) k); [reflexivity|]. cbn.
  destruct (decide (k1 = k)) as [->|Hne].
  - apply dict_get_set_same.
  - apply dict_get_set_other. congruence.
Qed.

Lemma fold_dict_set_nodup kvs d :
  List.NoDup (map fst d) ->
  List.NoDup (map fst (fold_left (fun d kv => dict_set d (fst kv) (snd kv)) kvs d)).
Proof.
  revert d. induction kvs as [|kv kvs IH]; intros d Hnd; [exact Hnd|].
  cbn [fold_left]. apply IH. now apply dict_set_nodup.
Qed.

Lemma nth_error_lookup {A : Type} (l : list A) (j : nat) : nth_error l j = l !! j.
Proof.
  revert j. induction l as [|a l IH]; intros [|j]; try reflexivity. apply IH.
Qed.

Lemma py_index_nat {A : Type} (l : list A) (j : nat) (a : A) :
  l !! j = Some a -> py_index l (Z.of_nat j) = Ok a.
Proof.
  intros Hj. unfold py_index.
  pose proof (lookup_lt_Some _ _ _ Hj) as Hlt.
  replace (Z.of_nat j <? 0) with false by (symmetry; apply Z.ltb_ge; lia).
  replace (0 <=? Z.of_nat j) with true by (symmetry; apply Z.leb_le; lia).
  replace (Z.of_nat j <? Z.of_nat (length l)) with true
    by (symmetry; apply Z.ltb_lt; lia).
  cbn. now rewrite Nat2Z.id, nth_error_lookup, Hj.
Qed.

(** On rows that all exist the loop is a run of writes, in row order. *)
Lemma record_perplexities_fold ks pps n j d :
  (j + n <= length ks)%nat -> (j + n <= length pps)%nat ->
  record_perplexities ks pps d (Z.of_nat j) n
  = Ok (fold_left (fun d kv => dict_set d (fst kv) (snd kv))
          (take n (drop j (zip ks pps))) d).
Proof.
  revert j d. induction n as [|n IH]; intros j d Hk Hp; [reflexivity|].
  destruct (lookup_lt_is_Some_2 ks j ltac:(lia)) as [k Hjk].
  destruct (lookup_lt_is_Some_2 pps j ltac:(lia)) as [pp Hjp].
  cbn [record_perplexities].
  rewrite (py_index_nat _ _ _ Hjk), (py_index_nat _ _ _ Hjp). cbn [bind].
  replace (Z.of_nat j + 1) with (Z.of_nat (S j)) by lia.
  rewrite IH by lia.
  assert (Hz : zip ks pps !! j = Some (k, pp)).
  { apply lookup_zip_with_Some. eauto. }
  rewrite (drop_S _ _ _ Hz). reflexivity.
Qed.

(** X4. The loop that records the perplexities of a batch: with one key
    and one perplexity per row it goes through, and afterwards a key that
    occurs among the rows has the perplexity of its last row (a duplicate
    within the batch or an entry from an earlier batch is overwritten),
    every other key has the score it had, and the keys are still pairwise
    different. *)
Theorem record_perplexities_last_write_wins (ks : list ExampleKey) (pps : list Q)
    (d : list (ExampleKey * Q)) (n : nat) :
  length ks = n -> length pps = n ->
  List.NoDup (map fst d) ->
  exists d',
    record_perplexities ks pps d 0 n = Ok d'
    /\ (forall k, dict_get d' k
                  = match dict_get (rev (zip ks pps)) k with
                    | Some v => Some v
                    | None => dict_get d k
                    end)
    /\ List.NoDup (map fst d').
Proof.
  intros Hk Hp Hnd. eexists. split.
  - apply (record_perplexities_fold ks pps n 0 d); cbn; lia.
  - rewrite drop_0, take_ge by (rewrite length_zip_with; lia).
    split; [intros k; apply fold_dict_set_get|now apply fold_dict_set_nodup].
Qed.

Lemma record_perplexities_last_write_wins_witness :
  exists d',
    record_perplexities [(["a"], ["b"]); (["c"], ["d"]); (["a"], ["b"])] [2; 3; 5]%Q
      [((["c"], ["d"]), 9%Q)] 0 3 = Ok d'
    /\ dict_get d' (["a"], ["b"]) = Some 5%Q
    /\ dict_get d' (["c"], ["d"]) = Some 3%Q.
Proof.
  destruct (record_perplexities_last_write_wins
              [(["a"], ["b"]); (["c"], ["d"]); (["a"], ["b"])] [2; 3; 5]%Q
              [((["c"], ["d"]), 9%Q)] 3 eq_refl eq_refl)
    as (d' & Hrun & Hget & _).
  - repeat constructor. cbn. tauto.
  - exists d'. split; [exact Hrun|]. split; rewrite Hget; reflexivity.
Defined.

(** ** The hard pool *)

Lemma dict_set_length d k v : (length (dict_set d k v) <= S (length d))%nat.
Proof.
  induction d as [|[k' v'] d IH]; cbn; [lia|].
  destruct (decide (k' = k)); cbn; lia.
Qed.

Lemma record_perplexities_keys ks pps d i n d' :
  List.NoDup (map fst d) ->
  record_perplexities ks pps d i n = Ok d' ->
  List.NoDup (map fst d') /\ (length d' <= length d + n)%nat.
Proof.
  revert d i. induction n as [|n IH]; intros d i Hnd; cbn [record_perplexities].
  - intros [= <-]. split; [exact Hnd|lia].
  - destruct (py_index ks i) as [k|e]; [|discriminate]. cbn [bind].
    destruct (py_index pps i) as [pp|e]; [|discriminate]. cbn [bind].
    intros H. apply IH in H as [Hnd' Hlen]; [|now apply dict_set_nodup].
    split; [exact Hnd'|]. pose proof (dict_set_length d k pp). lia.
Qed.

Lemma train_batch_keys params acc bf acc' :
  List.NoDup (map fst (example_to_perplexity acc)) ->
  train_batch params acc bf = Ok acc' ->
  List.NoDup (map fst (example_to_perplexity acc'))
  /\ (length (example_to_perplexity acc')
      <= length (example_to_perplexity acc) + length (trg (fst bf)))%nat.
Proof.
  destruct bf as [batch fw]. intros Hnd. unfold train_batch. cbn [fst].
  destruct (if boost params then _ else _) as [ks|e]; [|discriminate]. cbn [bind].
  destruct (flatten_and_check params fw (trg batch)) as [flat|e]; [|discriminate].
  cbn [bind].
  destruct (boost params).
  - destruct (record_perplexities _ _ _ _ _) as [d|e] eqn:Hrec; [|discriminate].
    cbn [bind]. apply record_perplexities_keys in Hrec; [|exact Hnd].
    destruct (_ =? 0); [discriminate|]. intros [= <-]. exact Hrec.
  - cbn [bind]. destruct (_ =? 0); [discriminate|]. intros [= <-]. cbn.
    split; [exact Hnd|lia].
Qed.

Lemma train_batches_keys params stream acc acc' :
  List.NoDup (map fst (example_to_perplexity acc)) ->
  train_batches params acc stream = Ok acc' ->
  List.NoDup (map fst (example_to_perplexity acc'))
  /\ (length (example_to_perplexity acc')
      <= length (example_to_perplexity acc) + stream_rows stream)%nat.
Proof.
  revert acc. induction stream as [|bf stream IH]; intros acc Hnd.
  - intros [= <-]. split; [exact Hnd|cbn; lia].
  - cbn [train_batches]. destruct (train_batch params acc bf) as [acc1|e] eqn:Hb; [|discriminate].
    cbn [bind]. intros Hrest.
    apply train_batch_keys in Hb as [Hnd1 Hlen1]; [|exact Hnd].
    apply IH in Hrest as [Hnd' Hlen']; [|exact Hnd1].
    split; [exact Hnd'|].
    change (stream_rows (bf :: stream))
      with (length (trg (fst bf)) + stream_rows stream)%nat. lia.
Qed.

(** Whatever the fraction, what is returned is an initial part of the
    descending sort. *)
Lemma get_hardest_examples_prefix items p :
  exists k, get_hardest_examples items p = firstn k (sorted_desc items).
Proof.
  unfold get_hardest_examples, py_slice_to.
  destruct (_ <? 0); eauto.
Qed.

Lemma firstn_keys_nodup (l : list (ExampleKey * Q)) k :
  List.NoDup (map fst l) -> List.NoDup (map fst (firstn k l)).
Proof.
  intros Hnd. rewrite <- (firstn_skipn k l), List.map_app in Hnd.
  now apply List.NoDup_app_remove_r in Hnd.
Qed.

(** X5. The hard examples that [train_epoch] returns have pairwise
    different keys, and there are at most as many of them as the stream
    had target rows. *)
Theorem train_epoch_hard_examples_distinct params (its its' : Z)
    (data_iter : list (Batch * Forward)) (loss : Q) (hard : list (ExampleKey * Q)) :
  train_epoch params its data_iter = Ok (loss, hard, its') ->
  List.NoDup (map fst hard) /\ (length hard <= stream_rows data_iter)%nat.
Proof.
  unfold train_epoch.
  destruct (train_batches params _ data_iter) as [acc|e] eqn:Hrun; [|discriminate].
  cbn [bind]. apply train_batches_keys in Hrun as [Hnd Hlen]; [|constructor].
  cbn [example_to_perplexity length] in Hlen.
  destruct (_ =? 0); [discriminate|]. intros [= _ <- _].
  destruct (boost params); [|split; [constructor|cbn; lia]].
  destruct (get_hardest_examples_prefix (example_to_perplexity acc) (boost_percent params))
    as [k ->].
  assert (Hperm := sorted_desc_perm (example_to_perplexity acc)).
  split.
  - apply firstn_keys_nodup.
    eapply Permutation_NoDup; [|exact Hnd].
    apply Permutation_map. now symmetry.
  - rewrite List.length_firstn, (Permutation_length Hperm). lia.
Qed.

Lemma train_epoch_hard_examples_distinct_witness :
  exists loss hard its',
    train_epoch best_params 0
      (demo_batches 0 {| dataset := demo_data ++ demo_data; made_by_boosting := true |})
    = Ok (loss, hard, its')
    /\ List.NoDup (map fst hard) /\ length hard = 2%nat.
Proof.
  eexists _, _, _. split; [vm_compute; reflexivity|].
  split; [|reflexivity].
  eapply (train_epoch_hard_examples_distinct best_params 0 1
            (demo_batches 0 {| dataset := demo_data ++ demo_data;
                               made_by_boosting := true |})).
  vm_compute. reflexivity.
Defined.

Lemma get_hardest_examples_all (items : list (ExampleKey * Q)) (p : Q) :
  (1 <= p)%Q -> get_hardest_examples items p = sorted_desc items.
Proof.
  intros H1.
  assert (Hlen : length (sorted_desc items) = length items)
    by apply Permutation_length, sorted_desc_perm.
  assert (Hn : (0 <= inject_Z (Z.of_nat (length items)))%Q).
  { change 0%Q with (inject_Z 0). rewrite <- Zle_Qle. lia. }
  unfold get_hardest_examples, py_slice_to, py_int. rewrite Hlen.
  assert (Hge : (inject_Z (Z.of_nat (length items))
                 <= p * inject_Z (Z.of_nat (length items)))%Q).
  { rewrite <- (Qmult_1_l (inject_Z (Z.of_nat (length items)))) at 1.
    now apply Qmult_le_compat_r. }
  assert (H0 : (0 <= p * inject_Z (Z.of_nat (length items)))%Q)
    by (eapply Qle_trans; eauto).
  apply Qle_bool_iff in H0. rewrite H0.
  apply Qfloor_resp_le in Hge. rewrite Qfloor_Z in Hge.
  replace (_ <? 0) with false by (symmetry; apply Z.ltb_ge; lia).
  apply firstn_all2. rewrite Hlen. lia.
Qed.



Lemma insert_desc_front x l :
  Forall (score_ge x) l -> insert_desc x l = x :: l.
Proof.
  destruct 1 as [|y l Hy _]; [reflexivity|]. cbn.
  apply Qle_bool_iff in Hy. now rewrite Hy.
Qed.

(** X7. A list that is already in descending order of score is left as it
    is by the sort, so sorting twice is sorting once, and the ranker
    applied with fraction 1 to its own output returns that output. *)
Theorem sorted_desc_fixes_sorted (items : list (ExampleKey * Q)) (p : Q) :
  (StronglySorted score_ge items -> sorted_desc items = items)
  /\ sorted_desc (sorted_desc items) = sorted_desc items
  /\ get_hardest_examples (get_hardest_examples items p) 1
     = get_hardest_examples items p.
Proof.
  assert (Hfix : forall l, StronglySorted score_ge l -> sorted_desc l = l).
  { induction 1 as [|x l Hl IH Hx]; [reflexivity|].
    cbn [sorted_desc foldr]. fold (sorted_desc l). rewrite IH.
    now apply insert_desc_front. }
  split; [apply Hfix|]. split; [apply Hfix, sorted_desc_sorted|].
  rewrite get_hardest_examples_all by apply Qle_refl. apply Hfix.
  destruct (get_hardest_examples_prefix items p) as [k ->].
  pose proof (sorted_desc_sorted items) as Hs.
  rewrite <- (firstn_skipn k (sorted_desc items)) in Hs.
  revert Hs. generalize (firstn k (sorted_desc items)) (skipn k (sorted_desc items)).
  intros a b. induction a as [|x a IH]; cbn; intros Hs; [constructor|].
  apply StronglySorted_inv in Hs as [Hs Hx]. constructor; [now apply IH|].
  apply List.Forall_forall. intros y Hy.
  eapply List.Forall_forall in Hx; [exact Hx|]. apply in_or_app. now left.
Qed.

Lemma sorted_desc_fixes_sorted_witness :
  sorted_desc (sorted_desc ranked_pool) = sorted_desc ranked_pool.
Proof.
  destruct (sorted_desc_fixes_sorted ranked_pool 1) as (_ & H & _). exact H.
Defined.

(** ** Reverse tokenization: padding, bounds, failures *)

Lemma reverse_example_stops_at_eos params pre rest :
  reverse_example params (pre ++ eos_index params :: rest)
  = reverse_example params (pre ++ [eos_index params]).
Proof.
  induction pre as [|t pre IH]; cbn.
  - now rewrite Z.eqb_refl.
  - destruct (t =? eos_index params); [reflexivity|]. now rewrite IH.
Qed.

Lemma batch_reverse_length params batch sentences :
  batch_reverse_tokenization params batch = Ok sentences ->
  length sentences = length batch.
Proof.
  revert sentences. induction batch as [|ex batch IH]; intros sentences; cbn.
  - now intros [= <-].
  - destruct (reverse_example params ex); [|discriminate]. cbn [bind].
    destruct (batch_reverse_tokenization params batch) as [ss|]; [|discriminate].
    cbn [bind]. intros [= <-]. cbn. f_equal. now apply IH.
Qed.

(** X8. What follows the first end-of-sequence marker of a row (padding or
    anything else) has no influence on the result, and a batch that is
    reversed without error gives exactly one sentence per row. *)
Theorem batch_reverse_ignores_tail params (rows : list (list Z * list Z))
    (sentences : list (list string)) :
  batch_reverse_tokenization params
    (map (fun r => fst r ++ eos_index params :: snd r) rows) = Ok sentences ->
  batch_reverse_tokenization params (map (fun r => fst r ++ [eos_index params]) rows)
  = Ok sentences
  /\ length sentences = length rows.
Proof.
  intros H. split.
  - rewrite <- H. clear H. induction rows as [|[pre rest] rows IH]; [reflexivity|].
    cbn [map fst snd batch_reverse_tokenization].
    now rewrite (reverse_example_stops_at_eos params pre rest), IH.
  - apply batch_reverse_length in H. now rewrite List.length_map in H.
Qed.

Lemma batch_reverse_ignores_tail_witness :
  batch_reverse_tokenization c7_params [[2; 4; 5; 3]; [2; 5; 3]]
  = Ok [["guten"; "tag"]; ["tag"]].
Proof.
  apply (batch_reverse_ignores_tail c7_params
           [([2; 4; 5], [1; 99; 3; 4]); ([2; 5], [])]
           [["guten"; "tag"]; ["tag"]]).
  reflexivity.
Defined.

Lemma py_index_out_of_range {A : Type} (l : list A) (i : Z) :
  Z.of_nat (length l) <= i \/ i < - Z.of_nat (length l) ->
  py_index l i = Raise IndexError.
Proof.
  intros H. unfold py_index.
  destruct (i <? 0) eqn:Hneg.
  - apply Z.ltb_lt in Hneg.
    replace (0 <=? _) with false; [reflexivity|]. symmetry. apply Z.leb_gt. lia.
  - apply Z.ltb_ge in Hneg.
    replace (i <? _) with false; [now rewrite andb_false_r|].
    symmetry. apply Z.ltb_ge. lia.
Qed.

Lemma reverse_example_only_index_error params example e :
  reverse_example params example = Raise e -> e = IndexError.
Proof.
  induction example as [|t rest IH]; cbn; [discriminate|].
  destruct (t =? eos_index params); [discriminate|].
  unfold py_index.
  destruct (_ && _); [|now intros [= <-]].
  destruct (nth_error _ _); [|now intros [= <-]]. cbn [bind].
  destruct (reverse_example params rest); [discriminate|]. cbn [bind].
  intros [= <-]. now apply IH.
Qed.

Lemma batch_reverse_only_index_error params batch e :
  batch_reverse_tokenization params batch = Raise e -> e = IndexError.
Proof.
  induction batch as [|ex batch IH]; cbn; [discriminate|].
  destruct (reverse_example params ex) eqn:Hex.
  - cbn [bind]. destruct (batch_reverse_tokenization params batch); [discriminate|].
    cbn [bind]. intros [= <-]. now apply IH.
  - cbn [bind]. intros [= <-]. now apply reverse_example_only_index_error in Hex.
Qed.

Lemma reverse_example_bad_id params pre i rest :
  Forall (fun t => t <> eos_index params /\ is_ok (py_index (itos params) t) = true) pre ->
  i <> eos_index params ->
  Z.of_nat (length (itos params)) <= i \/ i < - Z.of_nat (length (itos params)) ->
  reverse_example params (pre ++ i :: rest) = Raise IndexError.
Proof.
  intros Hpre Hi Hout. induction Hpre as [|t pre [Ht Hok] _ IH]; cbn.
  - apply Z.eqb_neq in Hi. rewrite Hi.
    now rewrite py_index_out_of_range.
  - apply Z.eqb_neq in Ht. rewrite Ht.
    destruct (py_index (itos params) t); [|discriminate]. cbn [bind].
    now rewrite IH.
Qed.

(** X9. The only way reverse tokenization fails is [IndexError], and it
    does fail so whenever a row has, before its first end-of-sequence
    marker, an id outside the vocabulary (at or beyond its size, or below
    minus its size): ids after the marker are never looked up, ids before
    it always are. *)
Theorem batch_reverse_bounds params (before after : list (list Z))
    (pre rest : list Z) (i : Z) (e : exn) (batch : list (list Z)) :
  (batch_reverse_tokenization params batch = Raise e -> e = IndexError)
  /\ (is_ok (batch_reverse_tokenization params before) = true ->
      Forall (fun t => t <> eos_index params
                       /\ is_ok (py_index (itos params) t) = true) pre ->
      i <> eos_index params ->
      Z.of_nat (length (itos params)) <= i \/ i < - Z.of_nat (length (itos params)) ->
      batch_reverse_tokenization params (before ++ (pre ++ i :: rest) :: after)
      = Raise IndexError).
Proof.
  split; [apply batch_reverse_only_index_error|].
  intros Hbefore Hpre Hi Hout.
  induction before as [|ex before IH]; cbn.
  - now rewrite reverse_example_bad_id.
  - cbn in Hbefore.
    destruct (reverse_example params ex); [|discriminate]. cbn [bind] in *.
    destruct (batch_reverse_tokenization params before); [|discriminate].
    rewrite IH by reflexivity. reflexivity.
Qed.

Lemma batch_reverse_bounds_witness :
  batch_reverse_tokenization c7_params [[2; 4; 3]; [2; 5; 6; 3]] = Raise IndexError.
Proof.
  destruct (batch_reverse_bounds c7_params [[2; 4; 3]] [] [2; 5] [3] 6 IndexError [])
    as [_ H].
  apply H.
  - reflexivity.
  - repeat constructor; discriminate.
  - discriminate.
  - left. cbn. lia.
Defined.

(** ** The checkpoint manager: frame, file names, optimizer *)

Lemma append_length (a b : string) :
  String.length (a +:+ b) = (String.length a + String.length b)%nat.
Proof. induction a as [|c a IH]; simpl; [reflexivity|now f_equal]. Qed.

Lemma append_inj_r (a b t : string) : a +:+ t = b +:+ t -> a = b.
Proof.
  revert b. induction a as [|c a IH]; intros [|d b] H.
  - reflexivity.
  - apply (f_equal String.length) in H. rewrite !append_length in H.
    simpl in H. lia.
  - apply (f_equal String.length) in H. rewrite !append_length in H.
    simpl in H. lia.
  - change (String c (a +:+ t) = String d (b +:+ t)) in H.
    injection H as -> H. f_equal. now apply IH.
Qed.

Lemma str_of_int_inj (a b : Z) : str_of_int a = str_of_int b -> a = b.
Proof.
  unfold str_of_int. intros H.
  assert (Hnn : forall z, Z.to_int z <> Decimal.Pos Decimal.Nil
                          /\ Z.to_int z <> Decimal.Neg Decimal.Nil).
  { intros [|p|p]; cbn; split; try discriminate;
      intros [= Hp]; exact (DecimalPos.Unsigned.to_uint_nonnil p Hp). }
  apply (f_equal NilZero.int_of_string) in H.
  rewrite !NilZero.isi in H by apply Hnn.
  injection H as H. now apply DecimalZ.to_int_inj.
Qed.

(** Two epochs never share a checkpoint file. *)
Lemma epoch_file_inj dir (a b : Z) : epoch_file dir a = epoch_file dir b -> a = b.
Proof.
  unfold epoch_file. intros H.
  apply path_join_inj in H; [|reflexivity|reflexivity].
  apply (append_inj_l "epoch_") in H. apply append_inj_r in H.
  now apply str_of_int_inj.
Qed.

Lemma save_checkpoint_other state ep is_best dir fs fs' p :
  ck_epoch state = Some ep ->
  save_checkpoint state is_best dir fs = Ok fs' ->
  p <> epoch_file dir ep ->
  (is_best = false \/ p <> path_join dir "best.pth.tar") ->
  files fs' !! p = files fs !! p.
Proof.
  unfold save_checkpoint. intros ->. fold (epoch_file dir ep).
  intros Hsave Hp Hb. destruct is_best; injection Hsave as <-; cbn [files].
  - destruct Hb as [Hb|Hb]; [discriminate|].
    rewrite !lookup_insert_ne by congruence.
    destruct (path_exists fs dir); reflexivity.
  - rewrite lookup_insert_ne by congruence.
    destruct (path_exists fs dir); reflexivity.
Qed.

(** X10. [save_checkpoint] creates the directory when it is missing and
    otherwise leaves the directories alone; it writes the epoch's file, and
    the best file when [is_best]; no other file is touched, and without
    [is_best] the best file is not touched either. A state without the
    "epoch" entry is a [KeyError] before anything is written. *)
Theorem save_checkpoint_frame (state : Checkpoint) (is_best : bool) (dir : string)
    (fs : FileSystem) :
  (ck_epoch state = None ->
     save_checkpoint state is_best dir fs = Raise (KeyError "epoch"))
  /\ (forall ep fs',
        ck_epoch state = Some ep ->
        save_checkpoint state is_best dir fs = Ok fs' ->
        path_exists fs' dir = true
        /\ (path_exists fs dir = true -> dirs fs' = dirs fs)
        /\ (path_exists fs dir = false -> dirs fs' = {[dir]} ∪ dirs fs)
        /\ files fs' !! epoch_file dir ep = Some state
        /\ (is_best = true -> files fs' !! path_join dir "best.pth.tar" = Some state)
        /\ (forall p, p <> epoch_file dir ep ->
              (is_best = false \/ p <> path_join dir "best.pth.tar") ->
              files fs' !! p = files fs !! p)).
Proof.
  split; [unfold save_checkpoint; now intros ->|].
  intros ep fs' Hep Hsave.
  pose proof (save_checkpoint_writes _ _ _ _ _ _ Hep Hsave) as Hfile.
  unfold save_checkpoint in Hsave. rewrite Hep in Hsave. fold (epoch_file dir ep) in *.
  assert (Hdirs : dirs fs' = dirs (if path_exists fs dir then fs
                                   else {| dirs := {[dir]} ∪ dirs fs; files := files fs |})).
  { destruct is_best; injection Hsave as <-; reflexivity. }
  assert (Hother : forall p, p <> epoch_file dir ep ->
            (is_best = false \/ p <> path_join dir "best.pth.tar") ->
            files fs' !! p = files fs !! p).
  { intros p Hp Hb. destruct is_best; injection Hsave as <-; cbn [files].
    - destruct Hb as [Hb|Hb]; [discriminate|].
      rewrite !lookup_insert_ne by congruence.
      destruct (path_exists fs dir); reflexivity.
    - rewrite lookup_insert_ne by congruence.
      destruct (path_exists fs dir); reflexivity. }
  split.
  { destruct (path_exists fs dir) eqn:Hex.
    - unfold path_exists in *. rewrite Hdirs.
      apply orb_true_iff in Hex as [Hd|Hf]; [now rewrite Hd|].
      apply bool_decide_eq_true_1 in Hf.
      destruct (decide (dir = epoch_file dir ep)) as [Heq|Hne].
      + rewrite (bool_decide_eq_true_2 (is_Some _)); [apply orb_true_r|].
        rewrite Heq at 1. rewrite Hfile. eauto.
      + destruct is_best eqn:Hb.
        * destruct (decide (dir = path_join dir "best.pth.tar")) as [Heq'|Hne'].
          -- rewrite (bool_decide_eq_true_2 (is_Some _)); [apply orb_true_r|].
             injection Hsave as <-. cbn [files]. rewrite Heq' at 1.
             rewrite lookup_insert_eq. eauto.
          -- rewrite (Hother dir Hne (or_intror Hne')).
             rewrite (bool_decide_eq_true_2 (is_Some _)) by exact Hf. apply orb_true_r.
        * rewrite (Hother dir Hne (or_introl eq_refl)).
          rewrite (bool_decide_eq_true_2 (is_Some _)) by exact Hf. apply orb_true_r.
    - unfold path_exists. rewrite Hdirs. cbn [dirs].
      rewrite (bool_decide_eq_true_2 (dir ∈ _))
        by (apply elem_of_union_l, elem_of_singleton; reflexivity).
      reflexivity. }
  split; [intros Hex; now rewrite Hdirs, Hex|].
  split; [intros Hex; now rewrite Hdirs, Hex|].
  split; [exact Hfile|]. split; [|exact Hother].
  intros ->. injection Hsave as <-. cbn [files]. apply lookup_insert_eq.
Qed.

Lemma save_checkpoint_frame_witness :
  path_exists gru_disk "ckpt/" = true
  /\ files gru_disk !! "ckpt/epoch_1.pth.tar" = Some gru_state
  /\ files gru_disk !! "ckpt/best.pth.tar" = Some gru_state
  /\ files gru_disk !! "ckpt/epoch_2.pth.tar" = None.
Proof.
  destruct (save_checkpoint_frame gru_state true "ckpt/" empty_disk) as [_ H].
  destruct (H 1 gru_disk eq_refl eq_refl) as (Hdir & _ & _ & Hfile & Hbest & Hother).
  split; [exact Hdir|]. split; [exact Hfile|]. split; [exact (Hbest eq_refl)|].
  rewrite Hother; [reflexivity|discriminate|right; discriminate].
Defined.

Section EpochFiles.

Variable params : HyperParams.
Variable world : Collaborators.

Lemma checkpoint_epoch_other epoch v t t' p :
  checkpoint_epoch params world epoch v t = Ok t' ->
  p <> epoch_file (checkpoint_dir params) (Z.of_nat epoch + 1) ->
  p <> best_file params ->
  files (disk t') !! p = files (disk t) !! p.
Proof.
  unfold checkpoint_epoch. fold (epoch_state world epoch).
  destruct (save_checkpoint _ _ _ _) as [fs|e] eqn:Hsave; [|discriminate].
  cbn [bind]. intros Ht' Hp Hb.
  rewrite <- (save_checkpoint_other (epoch_state world epoch) (Z.of_nat epoch + 1)
                _ _ _ _ p eq_refl Hsave Hp (or_intror Hb)).
  destruct (float_lt _ _); injection Ht' as <-; reflexivity.
Qed.

(** A completed epoch writes its own file and leaves the files of the
    other epochs alone. *)
Lemma train_one_epoch_files epoch l l' :
  train_one_epoch params world epoch l = Completed l' ->
  files (disk (self l')) !! epoch_file (checkpoint_dir params) (Z.of_nat epoch + 1)
  = Some (epoch_state world epoch)
  /\ (forall e, e <> epoch ->
        files (disk (self l')) !! epoch_file (checkpoint_dir params) (Z.of_nat e + 1)
        = files (disk (self l)) !! epoch_file (checkpoint_dir params) (Z.of_nat e + 1)).
Proof.
  intros H.
  apply train_one_epoch_completed in H
    as (t1 & it & tl & hard & its & val & t4 & t6 & Hsel & _ & _ & Hd & Hc & ->).
  apply select_iterator_frame in Hsel as (_ & _ & _ & _ & _ & Hk1).
  cbn [self set_epoch disk] in Hk1.
  apply periodic_decode_frame in Hd as (_ & _ & Hk4 & _).
  cbn [after_validation disk add_summary set_iterations] in Hk4.
  destruct (scheduler_step_frame val t4) as (_ & _ & Hk5 & _).
  cbn [self]. split.
  - now apply checkpoint_epoch_effect in Hc as (_ & _ & Hc).
  - intros e He.
    rewrite (checkpoint_epoch_other _ _ _ _ _ Hc), Hk5, Hk4, Hk1; [reflexivity| |].
    + intros Heq. apply epoch_file_inj in Heq. lia.
    + intros Heq. symmetry in Heq. revert Heq. apply best_file_not_epoch_file.
Qed.

Lemma train_loop_files n start l l' :
  train_loop params world (seq start n) l = Completed l' ->
  (forall e, (start <= e < start + n)%nat ->
     files (disk (self l')) !! epoch_file (checkpoint_dir params) (Z.of_nat e + 1)
     = Some (epoch_state world e))
  /\ (forall e, (e < start)%nat ->
        files (disk (self l')) !! epoch_file (checkpoint_dir params) (Z.of_nat e + 1)
        = files (disk (self l)) !! epoch_file (checkpoint_dir params) (Z.of_nat e + 1)).
Proof.
  revert start l. induction n as [|n IH]; intros start l; cbn [seq train_loop].
  - intros [= <-]. split; [intros e He; lia|reflexivity].
  - destruct (train_one_epoch params world start l) as [l1|ex l1] eqn:H1; [|discriminate].
    intros Hrest. apply train_one_epoch_files in H1 as [Hown Hothers].
    apply IH in Hrest as [Hlater Hearlier]. split.
    + intros e He. destruct (decide (e = start)) as [->|Hne].
      * rewrite Hearlier by lia. exact Hown.
      * apply Hlater. lia.
    + intros e He. rewrite Hearlier by lia. apply Hothers. lia.
Qed.

End EpochFiles.

(** X11. After a run of [n] completed epochs, the checkpoint directory
    holds for each of the epochs 1..n the file ["epoch_<k>.pth.tar"] with
    the state that was saved at the end of that epoch: the file names of
    different epochs differ, so no epoch overwrites the checkpoint of
    another. *)
Theorem every_epoch_keeps_its_checkpoint params world (t : Trainer) (n : nat) (l : Loop) :
  train_loop params world (seq 0 n) (enter_loop params t) = Completed l ->
  (forall a b : Z, epoch_file (checkpoint_dir params) a = epoch_file (checkpoint_dir params) b
                   -> a = b)
  /\ forall e, (e < n)%nat ->
       files (disk (self l)) !! epoch_file (checkpoint_dir params) (Z.of_nat e + 1)
       = Some (epoch_state world e).
Proof.
  intros Hrun. split; [apply epoch_file_inj|].
  apply train_loop_files in Hrun as [H _]. intros e He. apply H. lia.
Qed.

Lemma every_epoch_keeps_its_checkpoint_witness :
  files (disk (self (demo_after 3))) !! "model/checkpoints/epoch_1.pth.tar"
  = Some (epoch_state demo_world 0)
  /\ files (disk (self (demo_after 3))) !! "model/checkpoints/epoch_3.pth.tar"
     = Some (epoch_state demo_world 2).
Proof.
  destruct (every_epoch_keeps_its_checkpoint best_params demo_world demo_trainer 3
              (demo_after 3)) as [_ H].
  - vm_compute. reflexivity.
  - split; [exact (H 0%nat ltac:(lia))|exact (H 2%nat ltac:(lia))].
Defined.

(** ** Loading: optimizer, repeated loads, the legacy pattern *)

(** X12. Restoring from a mapping whose state dict (without the legacy
    keys) fits the model: with an optimizer and an "optim_dict" entry both
    model and optimizer are restored, the optimizer keeping its kind; with
    an optimizer but no "optim_dict" entry the call ends in a [KeyError]
    after the model has already been overwritten; without an optimizer the
    entry is not looked at. A mapping without "state_dict" is a [KeyError]
    with nothing changed. *)
Theorem load_checkpoint_optimizer fs (model : Model) (c : Checkpoint) (o : Optimizer) :
  (ck_state_dict c = None ->
     forall opt, load_checkpoint fs model (Mapping c) opt
                 = Aborted (KeyError "state_dict")
                     {| ls_model := model; ls_optimizer := opt; ls_mapping := Some c |})
  /\ (forall sd,
        ck_state_dict c = Some sd ->
        accepts model (drop_legacy_keys sd) = true ->
        let c' := {| ck_epoch := ck_epoch c;
                     ck_state_dict := Some (drop_legacy_keys sd);
                     ck_optim_dict := ck_optim_dict c |} in
        let model' := {| parameters := drop_legacy_keys sd |} in
        load_checkpoint fs model (Mapping c) None
        = Completed {| ls_model := model'; ls_optimizer := None; ls_mapping := Some c' |}
        /\ (forall od, ck_optim_dict c = Some od ->
              load_checkpoint fs model (Mapping c) (Some o)
              = Completed {| ls_model := model';
                             ls_optimizer := Some {| is_scheduled := is_scheduled o;
                                                     optim_state := od |};
                             ls_mapping := Some c' |})
        /\ (ck_optim_dict c = None ->
              load_checkpoint fs model (Mapping c) (Some o)
              = Aborted (KeyError "optim_dict")
                  {| ls_model := model'; ls_optimizer := Some o; ls_mapping := Some c' |})).
Proof.
  split.
  - intros Hsd opt. unfold load_checkpoint, restore_from. now rewrite Hsd.
  - intros sd Hsd Hacc c' model'.
    unfold load_checkpoint, restore_from.
    rewrite Hsd, (load_state_dict_accepts _ _ Hacc). cbn [ck_optim_dict].
    subst c' model'. split; [reflexivity|]. split.
    + intros od Hod. rewrite Hod. reflexivity.
    + intros Hod. rewrite Hod. reflexivity.
Qed.

Lemma load_checkpoint_optimizer_witness :
  ls_optimizer (final_state (load_checkpoint empty_disk gru_fresh (Mapping gru_state)
                               (Some {| is_scheduled := true; optim_state := [] |})))
  = Some {| is_scheduled := true; optim_state := [5] |}.
Proof.
  destruct (load_checkpoint_optimizer empty_disk gru_fresh gru_state
              {| is_scheduled := true; optim_state := [] |}) as [_ H].
  destruct (H (model_state_dict gru_live) eq_refl eq_refl) as (_ & Hopt & _).
  rewrite (Hopt [5] eq_refl). reflexivity.
Defined.

Lemma drop_legacy_keys_idem (sd : gmap string tensor) :
  drop_legacy_keys (drop_legacy_keys sd) = drop_legacy_keys sd.
Proof.
  apply drop_legacy_keys_id. intros k [v Hv].
  rewrite drop_legacy_keys_lookup in Hv.
  destruct (is_legacy k); [discriminate|reflexivity].
Qed.

Lemma restore_from_again model opt c shared st :
  restore_from model opt c shared = Completed st ->
  forall c', (if shared then ls_mapping st = Some c' else c' = c) ->
  restore_from (ls_model st) (ls_optimizer st) c' shared = Completed st.
Proof.
  unfold restore_from.
  destruct (ck_state_dict c) as [sd|] eqn:Hsd; [|discriminate].
  destruct (load_state_dict model (drop_legacy_keys sd)) as [m'|e] eqn:Hload; [|discriminate].
  assert (Hm : m' = {| parameters := drop_legacy_keys sd |}).
  { unfold load_state_dict in Hload.
    destruct (bool_decide _); [|discriminate].
    destruct (same_shapes _ _); [|discriminate]. now injection Hload as <-. }
  subst m'.
  assert (Hself : load_state_dict {| parameters := drop_legacy_keys sd |}
                    (drop_legacy_keys sd)
                  = Ok {| parameters := drop_legacy_keys sd |}).
  { apply load_state_dict_accepts.
    exact (accepts_self {| parameters := drop_legacy_keys sd |}). }
  destruct opt as [o|].
  - cbn [ck_optim_dict]. destruct (ck_optim_dict c) as [od|] eqn:Hod; [|discriminate].
    intros [= <-] c' Hc'. cbn [ls_model ls_optimizer ls_mapping] in *.
    destruct shared.
    + injection Hc' as <-. cbn [ck_state_dict ck_optim_dict ck_epoch].
      rewrite drop_legacy_keys_idem, Hself. reflexivity.
    + subst c'. rewrite Hsd, Hself. cbn [ck_optim_dict]. rewrite Hod. reflexivity.
  - intros [= <-] c' Hc'. cbn [ls_model ls_optimizer ls_mapping] in *.
    destruct shared.
    + injection Hc' as <-. cbn [ck_state_dict ck_optim_dict ck_epoch].
      rewrite drop_legacy_keys_idem, Hself. reflexivity.
    + subst c'. rewrite Hsd, Hself. reflexivity.
Qed.

(** X13. Loading is idempotent: after a load that went through, loading
    the same file again into the restored model and optimizer, or loading
    the mapping again that the first call left behind, goes through too and
    changes nothing. *)
Theorem load_checkpoint_twice fs (model : Model) (opt : option Optimizer)
    (arg : CheckpointArg) (st : LoadState) :
  load_checkpoint fs model arg opt = Completed st ->
  match arg with
  | Path p =>
      load_checkpoint fs (ls_model st) (Path p) (ls_optimizer st) = Completed st
  | Mapping _ =>
      exists c', ls_mapping st = Some c'
                 /\ load_checkpoint fs (ls_model st) (Mapping c') (ls_optimizer st)
                    = Completed st
  end.
Proof.
  destruct arg as [p|c]; unfold load_checkpoint.
  - destruct (negb (path_exists fs p)); [discriminate|].
    destruct (files fs !! p) as [c|]; [|discriminate].
    intros H. now apply (restore_from_again _ _ _ _ _ H c).
  - intros H.
    assert (Hmap : exists c', ls_mapping st = Some c').
    { unfold restore_from in H.
      destruct (ck_state_dict c); [|discriminate].
      destruct (load_state_dict _ _); [|discriminate].
      destruct opt; [destruct (ck_optim_dict _); [|discriminate]|];
        injection H as <-; eauto. }
    destruct Hmap as [c' Hc']. exists c'. split; [exact Hc'|].
    now apply (restore_from_again _ _ _ _ _ H c').
Qed.

Lemma load_checkpoint_twice_witness :
  exists st,
    load_checkpoint gru_disk gru_fresh (Path "ckpt/epoch_1.pth.tar") None = Completed st
    /\ load_checkpoint gru_disk (ls_model st) (Path "ckpt/epoch_1.pth.tar")
         (ls_optimizer st) = Completed st.
Proof.
  eexists. split; [reflexivity|].
  exact (load_checkpoint_twice gru_disk gru_fresh None (Path "ckpt/epoch_1.pth.tar")
           _ eq_refl).
Defined.

Lemma substring_all (s : string) : substring 0 (String.length s) s = s.
Proof. induction s as [|c s IH]; simpl; [reflexivity|now f_equal]. Qed.

Lemma substring_skip (a s : string) :
  substring (String.length a) (String.length s) (a +:+ s) = s.
Proof. induction a as [|c a IH]; simpl; [apply substring_all|exact IH]. Qed.

(** Every key that ends in a suffix is recognised by [endswith]. *)
Lemma endswith_append (a s : string) : endswith (a +:+ s) s = true.
Proof.
  unfold endswith. rewrite append_length.
  replace (String.length a + String.length s - String.length s)%nat
    with (String.length a) by lia.
  rewrite substring_skip, String.eqb_refl.
  rewrite (proj2 (Nat.leb_le _ _)) by lia. reflexivity.
Qed.

(** X14. The legacy pattern is a suffix test: whatever the module path in
    front, a key of the form [prefix ++ "weight_hh_l0"] is absent after the
    deletion loop, while a key shorter than the twelve characters of the
    pattern is always kept with its tensor. *)
Theorem legacy_pattern_is_suffix (sd : gmap string tensor) (prefix key : string) :
  drop_legacy_keys sd !! (prefix +:+ "weight_hh_l0") = None
  /\ ((String.length key < 12)%nat -> drop_legacy_keys sd !! key = sd !! key).
Proof.
  split.
  - rewrite drop_legacy_keys_lookup. unfold is_legacy. now rewrite endswith_append.
  - intros Hlen. rewrite drop_legacy_keys_lookup. unfold is_legacy, endswith.
    change (String.length "weight_hh_l0") with 12%nat.
    rewrite (proj2 (Nat.leb_gt _ _)) by lia. reflexivity.
Qed.

Lemma legacy_pattern_is_suffix_witness :
  drop_legacy_keys (parameters gru_live) !! "rnn.weight_hh_l0" = None
  /\ drop_legacy_keys (parameters gru_live) !! "fc.weight" = Some [7].
Proof.
  destruct (legacy_pattern_is_suffix (parameters gru_live) "rnn." "fc.weight")
    as [Hdrop Hkeep].
  split; [exact Hdrop|]. rewrite Hkeep; [reflexivity|cbn; lia].
Defined.

(** ** The epoch loop: scheduler, boosting switched off, warmup below zero *)

Section LoopFacts.

Variable params : HyperParams.
Variable world : Collaborators.

Lemma scheduler_step_effect v t :
  self_scheduler (scheduler_step v t)
  = match self_scheduler t with
    | Some seen => Some (seen ++ [v])
    | None => None
    end.
Proof. unfold scheduler_step. destruct (self_scheduler t) eqn:H; [reflexivity|exact H]. Qed.

Lemma train_one_epoch_scheduler epoch l l' :
  train_one_epoch params world epoch l = Completed l' ->
  exists v,
    validate params (dev_batches world epoch) = Ok v
    /\ val_losses (self_summary_writer (self l'))
       = val_losses (self_summary_writer (self l)) ++ [v]
    /\ self_scheduler (self l')
       = match self_scheduler (self l) with
         | Some seen => Some (seen ++ [v])
         | None => None
         end.
Proof.
  intros H.
  destruct (train_one_epoch_best params world _ _ _ H) as (v & Hval & Hw & _).
  exists v. split; [exact Hval|]. split; [exact Hw|].
  apply train_one_epoch_completed in H
    as (t1 & it & tl & hard & its & val & t4 & t6 & Hsel & _ & Hval' & Hd & Hc & ->).
  rewrite Hval in Hval'. injection Hval' as <-.
  apply select_iterator_frame in Hsel as (_ & _ & _ & Hs1 & _).
  cbn [self set_epoch self_scheduler] in Hs1.
  apply periodic_decode_frame in Hd as (_ & _ & _ & Hs4 & _).
  cbn [after_validation self_scheduler add_summary set_iterations] in Hs4.
  apply checkpoint_epoch_frame in Hc as (_ & _ & Hs6).
  cbn [self]. now rewrite Hs6, scheduler_step_effect, Hs4, Hs1.
Qed.

Lemma train_loop_scheduler n start l l' :
  train_loop params world (seq start n) l = Completed l' ->
  exists vs,
    length vs = n
    /\ val_losses (self_summary_writer (self l'))
       = val_losses (self_summary_writer (self l)) ++ vs
    /\ self_scheduler (self l')
       = match self_scheduler (self l) with
         | Some seen => Some (seen ++ vs)
         | None => None
         end.
Proof.
  revert start l. induction n as [|n IH]; intros start l; cbn [seq train_loop].
  - intros [= <-]. exists []. rewrite app_nil_r. split; [reflexivity|].
    split; [reflexivity|]. destruct (self_scheduler (self l)); [|reflexivity].
    now rewrite app_nil_r.
  - destruct (train_one_epoch params world start l) as [l1|ex l1] eqn:H1; [|discriminate].
    intros Hrest. apply train_one_epoch_scheduler in H1 as (v & _ & Hw1 & Hs1).
    apply IH in Hrest as (vs & Hlen & Hw & Hs).
    exists (v :: vs). split; [cbn; lia|]. split.
    + rewrite Hw, Hw1, <- app_assoc. reflexivity.
    + rewrite Hs, Hs1. destruct (self_scheduler (self l)); [|reflexivity].
      now rewrite <- app_assoc.
Qed.

End LoopFacts.

(** X15. After a run of [n] completed epochs of a freshly built trainer
    with a scheduler, the scheduler has been stepped exactly [n] times,
    with the validation losses of the epochs in their order; a trainer
    without a scheduler stays without one. *)
Theorem scheduler_sees_validation_losses params world (train_iter : list Example)
    (scheduler : bool) (fs : FileSystem) (n : nat) (l : Loop) :
  train_loop params world (seq 0 n)
    (enter_loop params (init_trainer train_iter scheduler fs)) = Completed l ->
  length (val_losses (self_summary_writer (self l))) = n
  /\ self_scheduler (self l)
     = if scheduler then Some (val_losses (self_summary_writer (self l))) else None.
Proof.
  intros Hrun. apply train_loop_scheduler in Hrun as (vs & Hlen & Hw & Hs).
  cbn in Hw, Hs. rewrite Hw. split; [exact Hlen|].
  rewrite Hs. destruct scheduler; reflexivity.
Qed.

Lemma scheduler_sees_validation_losses_witness :
  self_scheduler (self (demo_after 3))
  = Some (val_losses (self_summary_writer (self (demo_after 3)))).
Proof.
  destruct (scheduler_sees_validation_losses best_params demo_world demo_data true
              empty_disk 3 (demo_after 3)) as [_ H].
  - vm_compute. reflexivity.
  - exact H.
Defined.

(** X16. With boosting switched off, whatever the warmup, no epoch ever
    extends the example collection: every epoch trains on [train_iter]
    itself, a run of completed epochs leaves the collection as it was, and
    after the first completed epoch the hard pool is the empty list. *)
Theorem no_boost_no_growth params world (start n : nat) (l l' : Loop) :
  boost params = false ->
  train_loop params world (seq start n) l = Completed l' ->
  self_train_iter (self l') = self_train_iter (self l)
  /\ (forall e l0,
        select_iterator params e l0
        = Ok (self l0, {| dataset := self_train_iter (self l0);
                          made_by_boosting := false |}))
  /\ ((0 < n)%nat -> hard_training_instances l' = Some []).
Proof.
  intros Hoff Hrun.
  assert (Hnever : forall e, boosting_applies params e = false)
    by (intros e; unfold boosting_applies; now rewrite Hoff).
  split; [|split].
  - apply train_loop_warmup in Hrun as [H _]; [exact H|intros; apply Hnever].
  - intros e l0. apply select_iterator_off, Hnever.
  - revert start l Hrun. induction n as [|n IH]; intros start l Hrun Hn; [lia|].
    cbn [seq train_loop] in Hrun.
    destruct (train_one_epoch params world start l) as [l1|ex l1] eqn:H1; [|discriminate].
    destruct n as [|n].
    + cbn in Hrun. injection Hrun as <-.
      apply train_one_epoch_completed in H1
        as (t1 & it & tl & hard & its & val & t4 & t6 & _ & Htr & _ & _ & _ & ->).
      apply (train_epoch_no_boost_hard _ _ _ _ _ _ Hoff) in Htr.
      cbn. now rewrite Htr.
    + eapply IH; [exact Hrun|lia].
Qed.

Lemma no_boost_no_growth_witness :
  self_train_iter (self plain_after) = demo_data
  /\ hard_training_instances plain_after = Some [].
Proof.
  destruct (no_boost_no_growth plain_params demo_world 0 2
              (enter_loop plain_params demo_trainer) plain_after) as (Hd & _ & Hh).
  - reflexivity.
  - vm_compute. reflexivity.
  - split; [exact Hd|apply Hh; lia].
Defined.

(** X17. With boosting on and a warmup count below zero the variable
    [hard_training_instances] is read before it is ever bound: a run of at
    least one epoch stops in the first epoch with [UnboundLocalError],
    before any training, and nothing has been logged or written. *)
Theorem negative_warmup_is_unbound params world (t : Trainer) :
  boost params = true ->
  boost_warmup params < 0 ->
  (0 < epochs params)%nat ->
  train params world t
  = Aborted (UnboundLocalError "hard_training_instances")
      {| self := set_epoch 0 t; hard_training_instances := None |}.
Proof.
  intros Hb Hw Hn. unfold train. destruct (epochs params) as [|n]; [lia|].
  cbn [seq train_loop]. unfold train_one_epoch, select_iterator, boosting_applies, enter_loop.
  cbn [self hard_training_instances]. rewrite Hb.
  replace (boost_warmup params =? 0) with false by (symmetry; apply Z.eqb_neq; lia).
  replace (boost_warmup params <? Z.of_nat 0 + 1) with true
    by (symmetry; apply Z.ltb_lt; lia).
  reflexivity.
Qed.

Lemma negative_warmup_is_unbound_witness :
  train (demo_params (-1) (1 # 2) 3) demo_world demo_trainer
  = Aborted (UnboundLocalError "hard_training_instances")
      {| self := set_epoch 0 demo_trainer; hard_training_instances := None |}.
Proof.
  apply (negative_warmup_is_unbound (demo_params (-1) (1 # 2) 3) demo_world demo_trainer).
  - reflexivity.
  - cbn. lia.
  - cbn. lia.
Defined.

(** ** The epoch loop: the decoder's epochs, aborted runs, the best file *)

Lemma periodic_decode_skips world t :
  self_decode_every_num_epochs t = 3 ->
  (Z.of_nat (self_epoch t) + 1) mod 3 <> 0 ->
  periodic_decode world t = Ok t.
Proof.
  intros H3 Hmod. unfold periodic_decode. rewrite H3.
  apply Z.eqb_neq in Hmod. now rewrite Hmod.
Qed.

(** X18. In an epoch whose 1-based number is not a multiple of 3 the
    decoder is not consulted: the epoch ends the same way and in the same
    state whatever the decoder would have done. *)
Theorem decoder_only_every_third_epoch params world
    (decoder : nat -> result (list (list string))) (epoch : nat) (l : Loop) :
  self_decode_every_num_epochs (self l) = 3 ->
  (Z.of_nat epoch + 1) mod 3 <> 0 ->
  train_one_epoch params (with_decoder world decoder) epoch l
  = train_one_epoch params world epoch l.
Proof.
  intros H3 Hmod. unfold train_one_epoch. cbn [batches dev_batches with_decoder].
  destruct (select_iterator params epoch _) as [[t1 it]|ex0] eqn:Hsel; [|reflexivity].
  apply select_iterator_frame in Hsel as (He & Hd & _).
  cbn [self set_epoch self_epoch self_decode_every_num_epochs] in He, Hd.
  destruct (train_epoch params _ _) as [[[tl hard] its]|ex1]; [|reflexivity].
  destruct (validate params _) as [val|ex2]; [|reflexivity].
  rewrite !periodic_decode_skips;
    cbn [self_decode_every_num_epochs self_epoch add_summary set_iterations];
    try (rewrite Hd; exact H3); try (rewrite He; exact Hmod).
  reflexivity.
Qed.

Lemma decoder_only_every_third_epoch_witness :
  train_one_epoch best_params failing_decoder_world 0
    (enter_loop best_params demo_trainer)
  = train_one_epoch best_params demo_world 0 (enter_loop best_params demo_trainer).
Proof.
  apply (decoder_only_every_third_epoch best_params demo_world
           (fun _ => Raise (DecoderError "greedy_decode failed")) 0
           (enter_loop best_params demo_trainer)).
  - reflexivity.
  - discriminate.
Defined.





Section BestFile.

Variable params : HyperParams.
Variable world : Collaborators.



End BestFile.



(** ** Elapsed time *)

(** X21. For an end time not before the start time, [epoch_time] returns
    whole minutes and seconds with the seconds between 0 and 59, and the
    two together are the elapsed time rounded down to a whole second. *)
Theorem epoch_time_bounds (start_time end_time : Q) :
  (start_time <= end_time)%Q ->
  let '(mins, secs) := epoch_time start_time end_time in
  0 <= mins
  /\ 0 <= secs <= 59
  /\ (inject_Z (60 * mins + secs) <= end_time - start_time)%Q
  /\ (end_time - start_time < inject_Z (60 * mins + secs + 1))%Q.
Proof.
  intros Hle. unfold epoch_time.
  set (e := (end_time - start_time)%Q).
  assert (He : (0 <= e)%Q) by (unfold e; lra).
  assert (He60 : (0 <= e / 60)%Q) by (apply Qle_shift_div_l; lra).
  assert (Hm : py_int (e / 60) = Qfloor (e / 60)).
  { unfold py_int. apply Qle_bool_iff in He60. now rewrite He60. }
  rewrite Hm. set (m := Qfloor (e / 60)).
  assert (Hm0 : 0 <= m).
  { unfold m. change 0 with (Qfloor 0). now apply Qfloor_resp_le. }
  assert (Hlo : (inject_Z m * 60 <= e)%Q).
  { pose proof (Qfloor_le (e / 60)) as H. fold m in H.
    apply (Qmult_le_compat_r _ _ 60) in H; [|lra].
    assert (Hd : (e / 60 * 60 == e)%Q) by (field).
    now rewrite Hd in H. }
  assert (Hhi : (e < inject_Z m * 60 + 60)%Q).
  { pose proof (Qlt_floor (e / 60)) as H. fold m in H.
    rewrite inject_Z_plus in H.
    apply (Qmult_lt_compat_r _ _ 60) in H; [|lra].
    assert (Hd : (e / 60 * 60 == e)%Q) by (field).
    rewrite Hd in H. change (inject_Z 1) with 1%Q in H. lra. }
  set (r := (e - inject_Z m * 60)%Q).
  assert (Hr0 : (0 <= r)%Q) by (unfold r; lra).
  assert (Hr60 : (r < 60)%Q) by (unfold r; lra).
  assert (Hs : py_int r = Qfloor r).
  { unfold py_int. apply Qle_bool_iff in Hr0. now rewrite Hr0. }
  rewrite Hs. set (s := Qfloor r).
  pose proof (Qfloor_le r) as Hsl. fold s in Hsl.
  pose proof (Qlt_floor r) as Hsu. fold s in Hsu.
  rewrite inject_Z_plus in Hsu. change (inject_Z 1) with 1%Q in Hsu.
  assert (Hs0 : 0 <= s).
  { unfold s. change 0 with (Qfloor 0). now apply Qfloor_resp_le. }
  assert (Hs59 : s <= 59).
  { assert (H : (inject_Z s < inject_Z 60)%Q)
      by (change (inject_Z 60) with 60%Q; lra).
    rewrite <- Zlt_Qlt in H. lia. }
  split; [exact Hm0|]. split; [lia|].
  rewrite !inject_Z_plus, inject_Z_mult.
  change (inject_Z 60) with 60%Q. change (inject_Z 1) with 1%Q.
  unfold r in Hsl, Hsu. split; lra.
Qed.

Lemma epoch_time_bounds_witness :
  let '(mins, secs) := epoch_time (3 # 2) (254 # 1) in
  0 <= mins
  /\ 0 <= secs <= 59
  /\ (inject_Z (60 * mins + secs) <= (254 # 1) - (3 # 2))%Q
  /\ ((254 # 1) - (3 # 2) < inject_Z (60 * mins + secs + 1))%Q.
Proof.
  apply (epoch_time_bounds (3 # 2) (254 # 1)). discriminate.
Defined.

(** ** Where the hard examples come from *)

Lemma py_index_in {A : Type} (l : list A) (i : Z) (a : A) :
  py_index l i = Ok a -> In a l.
Proof.
  unfold py_index. destruct (_ && _); [|discriminate].
  destruct (nth_error l _) eqn:Hn; [|discriminate].
  intros [= <-]. eapply nth_error_In; eauto.
Qed.

Lemma dict_set_keys_in d k v k0 :
  In k0 (map fst (dict_set d k v)) -> k0 = k \/ In k0 (map fst d).
Proof.
  rewrite dict_set_keys. destruct (bool_decide _); [now right|].
  rewrite List.map_app || idtac. intros H. apply in_app_or in H as [H|[<-|[]]]; auto.
Qed.

Lemma record_perplexities_keys_in ks pps d i n d' k0 :
  record_perplexities ks pps d i n = Ok d' ->
  In k0 (map fst d') -> In k0 ks \/ In k0 (map fst d).
Proof.
  revert d i. induction n as [|n IH]; intros d i; cbn [record_perplexities].
  - intros [= <-]. now right.
  - destruct (py_index ks i) as [k|e] eqn:Hk; [|discriminate]. cbn [bind].
    destruct (py_index pps i) as [pp|e]; [|discriminate]. cbn [bind].
    intros H Hin. destruct (IH _ _ H Hin) as [Hks|Hd]; [now left|].
    apply dict_set_keys_in in Hd as [->|Hd]; [|now right].
    left. eapply py_index_in; eauto.
Qed.

Lemma train_batches_keys_in params stream acc acc' k0 :
  train_batches params acc stream = Ok acc' ->
  In k0 (map fst (example_to_perplexity acc')) ->
  In k0 (stream_keys params stream) \/ In k0 (map fst (example_to_perplexity acc)).
Proof.
  revert acc. induction stream as [|[batch fw] stream IH]; intros acc.
  - intros [= <-]. now right.
  - cbn [train_batches]. unfold train_batch at 1.
    change (stream_keys params ((batch, fw) :: stream))
      with (match batch_reverse_tokenization params (src batch),
                  batch_reverse_tokenization params (trg batch) with
            | Ok s, Ok t => zip s t
            | _, _ => []
            end ++ stream_keys params stream).
    destruct (boost params) eqn:Hb.
    + destruct (batch_reverse_tokenization params (src batch)) as [s|e]; [|discriminate].
      cbn [bind].
      destruct (batch_reverse_tokenization params (trg batch)) as [t|e]; [|discriminate].
      cbn [bind].
      destruct (flatten_and_check params fw (trg batch)) as [flat|e]; [|discriminate].
      cbn [bind].
      destruct (record_perplexities _ _ _ _ _) as [d|e] eqn:Hrec; [|discriminate].
      cbn [bind]. destruct (_ =? 0); [discriminate|]. cbn [bind].
      intros Hrest Hin. destruct (IH _ Hrest Hin) as [H|H].
      * left. apply in_or_app. now right.
      * cbn [example_to_perplexity] in H.
        destruct (record_perplexities_keys_in _ _ _ _ _ _ _ Hrec H) as [H'|H'].
        -- left. apply in_or_app. now left.
        -- now right.
    + cbn [bind].
      destruct (flatten_and_check params fw (trg batch)) as [flat|e]; [|discriminate].
      cbn [bind]. destruct (_ =? 0); [discriminate|]. cbn [bind].
      intros Hrest Hin. destruct (IH _ Hrest Hin) as [H|H].
      * left. apply in_or_app. now right.
      * now right.
Qed.

(** X22. Every hard example that [train_epoch] returns is the
    reverse-tokenized (source, target) pair of some row of some batch of
    the stream it was run on: the ranker never returns an example that was
    not trained on in this epoch. *)
Theorem hard_examples_come_from_the_stream params (its its' : Z)
    (data_iter : list (Batch * Forward)) (loss : Q) (hard : list (ExampleKey * Q)) :
  train_epoch params its data_iter = Ok (loss, hard, its') ->
  forall kv, In kv hard -> In (fst kv) (stream_keys params data_iter).
Proof.
  unfold train_epoch.
  destruct (train_batches params _ data_iter) as [acc|e] eqn:Hrun; [|discriminate].
  cbn [bind]. destruct (_ =? 0); [discriminate|]. intros [= _ <- _] kv Hin.
  destruct (boost params); [|destruct Hin].
  destruct (get_hardest_examples_prefix (example_to_perplexity acc) (boost_percent params))
    as [k Hk].
  rewrite Hk in Hin.
  assert (Hall : In kv (sorted_desc (example_to_perplexity acc))).
  { rewrite <- (firstn_skipn k (sorted_desc (example_to_perplexity acc))).
    apply in_or_app. now left. }
  apply (Permutation_in _ (sorted_desc_perm _)) in Hall.
  assert (Hkey : In (fst kv) (map fst (example_to_perplexity acc)))
    by (apply in_map; exact Hall).
  destruct (train_batches_keys_in _ _ _ _ _ Hrun Hkey) as [H|[]]. exact H.
Qed.

Lemma hard_examples_come_from_the_stream_witness :
  In (["c"], ["d"])
     (stream_keys best_params
        (demo_batches 0 {| dataset := demo_data; made_by_boosting := false |})).
Proof.
  apply (hard_examples_come_from_the_stream best_params 0 1
           (demo_batches 0 {| dataset := demo_data; made_by_boosting := false |})
           (4 # 8) [((["c"], ["d"]), 7%Q); ((["b"], ["c"]), 6%Q)]
           ltac:(vm_compute; reflexivity) ((["c"], ["d"]), 7%Q)).
  now left.
Defined.
